(** * The API-key store and authorization middleware of the ShardoX API

    A shallow embedding of [src/utils/json-db.js] (class [JSONDatabase]) and
    of [authenticateApiKey] in [src/middleware/auth.js].

    The three JSON files the code reads and rewrites ([users.json],
    [api-keys.json], [logs.json]) are the three fields of the store [DB.t];
    every method is a function from the store to the new store and its
    result.  What the code draws from its environment on each call (a fresh
    uuid, the clock, the salt bcrypt picks) is an explicit argument.  Calls
    run one after the other, as each [await] does for a single caller.
    Strings are sequences of 8-bit characters, which is what the keys,
    hashes and dates of the store are made of.  The [lastId] field of
    [users.json], which no method reads, is left out; the files of short
    URLs and downloads, which are read and written on their own, are lists
    of their own. *)

From Stdlib Require Import Ascii String.
From stdpp Require Import base option list strings pretty gmap.

Open Scope string_scope.

(** ** JavaScript values used by the code *)

(** The result of an [async] method: a value, or a thrown [Error]. *)
Inductive result (A : Type) : Type :=
  | Return (a : A)
  | Throw (msg : string).
Arguments Return {A} a.
Arguments Throw {A} msg.

(** [s || d] on a string that may be [undefined]: the empty string is falsy. *)
Definition truthy (v : option string) : option string :=
  match v with
  | Some s => if decide (s = "") then None else Some s
  | None => None
  end.

Definition or_default (v : option string) (d : string) : string :=
  default d (truthy v).

(** [a || b] where both sides may be [undefined]: the left side when it is
    truthy, the right side (truthy or not) otherwise. *)
Definition js_or (a b : option string) : option string :=
  match truthy a with
  | Some s => Some s
  | None => b
  end.

(** [s.substring(0, n)]: the first [n] characters, or all of [s] when it
    is shorter. *)
Fixpoint substring0 (n : nat) (s : string) {struct n} : string :=
  match n, s with
  | S n', String c s' => String c (substring0 n' s')
  | _, _ => EmptyString
  end.

(** [s.startsWith(p)]. *)
Fixpoint startsWith (s p : string) {struct p} : bool :=
  match p, s with
  | EmptyString, _ => true
  | String a p', String b s' => Ascii.eqb a b && startsWith s' p'
  | String _ _, EmptyString => false
  end.

Global Arguments substring0 : simpl never.
Global Arguments startsWith : simpl never.

(** [s.replace(/-/g, '')]. *)
Fixpoint strip_dashes (s : string) : string :=
  match s with
  | EmptyString => EmptyString
  | String c s' =>
      if Ascii.eqb c "-"%char then strip_dashes s' else String c (strip_dashes s')
  end.

(** ** Records of the three files *)

Module User.
Record t : Type := mk {
  id : string;
  username : string;
  email : string;
  password : option string;   (* absent in [userWithoutPassword] *)
  role : string;
  createdAt : string;
  lastLogin : option string;
  isActive : bool;
  apiLimit : nat;
  usageToday : nat;
  lastResetDate : option string   (* absent until the first recorded request *)
}.

(** [const { password, ...userWithoutPassword } = user]. *)
Definition without_password (u : t) : t :=
  mk (id u) (username u) (email u) None (role u) (createdAt u) (lastLogin u)
     (isActive u) (apiLimit u) (usageToday u) (lastResetDate u).

Definition set_usageToday (n : nat) (u : t) : t :=
  mk (id u) (username u) (email u) (password u) (role u) (createdAt u)
     (lastLogin u) (isActive u) (apiLimit u) n (lastResetDate u).

Definition set_lastResetDate (d : string) (u : t) : t :=
  mk (id u) (username u) (email u) (password u) (role u) (createdAt u)
     (lastLogin u) (isActive u) (apiLimit u) (usageToday u) (Some d).
End User.

Module ApiKey.
Record t : Type := mk {
  id : string;
  userId : string;
  name : string;
  key : string;                (* the bcrypt hash *)
  plainKey : option string;
  createdAt : string;
  lastUsed : option string;
  usageCount : nat;
  isActive : bool;
  rateLimit : nat;
  endpoints : list string;
  revokedAt : option string
}.

(** [keyData.lastUsed = now; keyData.usageCount = (keyData.usageCount || 0) + 1]. *)
Definition touch (now : string) (k : t) : t :=
  mk (id k) (userId k) (name k) (key k) (plainKey k) (createdAt k)
     (Some now) (S (usageCount k)) (isActive k) (rateLimit k) (endpoints k)
     (revokedAt k).

(** [k.isActive = false; k.revokedAt = now]. *)
Definition revoke (now : string) (k : t) : t :=
  mk (id k) (userId k) (name k) (key k) (plainKey k) (createdAt k)
     (lastUsed k) (usageCount k) false (rateLimit k) (endpoints k)
     (Some now).
End ApiKey.

(** The object [getApiKeysByUser] maps each record to. *)
Module KeyInfo.
Record t : Type := mk {
  id : string;
  name : string;
  createdAt : string;
  lastUsed : option string;
  usageCount : nat
}.
End KeyInfo.

(** The object [createApiKey] returns. *)
Module IssuedKey.
Record t : Type := mk {
  id : string;
  name : string;
  apiKey : string;
  createdAt : string
}.
End IssuedKey.

Module Log.
(** The [data] argument of [logApiUsage]; only [ip] and [userAgent] are read. *)
Record payload : Type := mkPayload {
  data_ip : option string;
  data_userAgent : option string
}.

Record t : Type := mk {
  id : string;
  apiKey : string;             (* first 8 characters of the presented key + "..." *)
  endpoint : string;
  timestamp : string;
  data : payload;
  ip : string;
  userAgent : string
}.
End Log.

Module Stats.
Record t : Type := mk {
  totalRequests : nat;
  todayRequests : nat;
  dailyLimit : nat;
  usageToday : nat;
  lastRequest : option string
}.
End Stats.

Module DB.
Record t : Type := mk {
  users : list User.t;
  apiKeys : list ApiKey.t;
  logs : list Log.t
}.

(** The files as [init] creates them. *)
Definition empty : t := mk [] [] [].

Definition set_users (us : list User.t) (db : t) : t := mk us (apiKeys db) (logs db).
Definition set_apiKeys (ks : list ApiKey.t) (db : t) : t := mk (users db) ks (logs db).
Definition set_logs (ls : list Log.t) (db : t) : t := mk (users db) (apiKeys db) ls.
End DB.

(** What [validateApiKey] returns. *)
Module Validation.
Record info : Type := mkInfo {
  userId : string;
  keyId : string;
  user : option User.t;
  permissions : list string;
  rateLimit : nat
}.

Inductive t : Type :=
  | Valid (v : info)
  | Invalid.
End Validation.

(** ** The methods of [JSONDatabase] *)

Section JSONDatabase.

(** [bcrypt.hash(s, 10)] with the salt it draws, and [bcrypt.compare]. *)
Variable bcrypt_hash : string -> string -> string.
Variable bcrypt_compare : string -> string -> bool.
(** [new Date(iso).toDateString()]: the local calendar day of a timestamp. *)
Variable toDateString : string -> string.

Definition createUser (uuid salt now : string)
    (username email password : string) (db : DB.t) : DB.t * result User.t :=
  match list_find (λ u, User.email u = email ∨ User.username u = username)
                  (DB.users db) with
  | Some _ => (db, Throw "User already exists")
  | None =>
      let hashedPassword := bcrypt_hash salt password in
      let newUser :=
        User.mk uuid username email (Some hashedPassword) "user" now None
                true 1000 0 None in
      (DB.set_users (DB.users db ++ [newUser]) db,
       Return (User.without_password newUser))
  end.

Definition getUserById (userId : string) (db : DB.t) : option User.t :=
  match list_find (λ u, User.id u = userId) (DB.users db) with
  | Some (_, user) => Some (User.without_password user)
  | None => None
  end.

Definition createApiKey (secret_uuid salt uuid now : string)
    (userId : string) (name : option string) (db : DB.t)
    : DB.t * IssuedKey.t :=
  let name := default "Default Key" name in
  let apiKey := "shd_" ++ strip_dashes secret_uuid in
  let hashedKey := bcrypt_hash salt apiKey in
  let newApiKey :=
    ApiKey.mk uuid userId name hashedKey (Some apiKey) now None 0 true 100
              ["*"] None in
  (DB.set_apiKeys (DB.apiKeys db ++ [newApiKey]) db,
   IssuedKey.mk (ApiKey.id newApiKey) (ApiKey.name newApiKey) apiKey
                (ApiKey.createdAt newApiKey)).

(** The [for ... of] loop returns at the first record for which
    [isValid && keyData.isActive] holds; [list_find] gives that record and
    its position, which is where the mutated record is written back. *)
Definition validateApiKey (now : string) (apiKey : string) (db : DB.t)
    : DB.t * Validation.t :=
  match list_find
          (λ keyData, bcrypt_compare apiKey (ApiKey.key keyData) = true
                      ∧ ApiKey.isActive keyData = true)
          (DB.apiKeys db) with
  | Some (i, keyData) =>
      let keyData := ApiKey.touch now keyData in
      let db := DB.set_apiKeys (<[i := keyData]> (DB.apiKeys db)) db in
      let user := getUserById (ApiKey.userId keyData) db in
      (db,
       Validation.Valid
         (Validation.mkInfo (ApiKey.userId keyData) (ApiKey.id keyData) user
            (ApiKey.endpoints keyData) (ApiKey.rateLimit keyData)))
  | None => (db, Validation.Invalid)
  end.

Definition getApiKeysByUser (userId : string) (db : DB.t) : list KeyInfo.t :=
  (λ k, KeyInfo.mk (ApiKey.id k) (ApiKey.name k) (ApiKey.createdAt k)
                   (ApiKey.lastUsed k) (ApiKey.usageCount k))
  <$> filter (λ k, ApiKey.userId k = userId ∧ ApiKey.isActive k = true)
             (DB.apiKeys db).

Definition revokeApiKey (now : string) (keyId userId : string) (db : DB.t)
    : DB.t * result bool :=
  match list_find (λ k, ApiKey.id k = keyId ∧ ApiKey.userId k = userId)
                  (DB.apiKeys db) with
  | None => (db, Throw "API key not found")
  | Some (keyIndex, k) =>
      (DB.set_apiKeys (<[keyIndex := ApiKey.revoke now k]> (DB.apiKeys db)) db,
       Return true)
  end.

(** The reset and the increment [updateUserUsage] applies to the record
    at [userIndex]. *)
Definition bumpUsage (today : string) (u : User.t) : User.t :=
  let u :=
    if decide (User.lastResetDate u = Some today) then u
    else User.set_lastResetDate today (User.set_usageToday 0 u) in
  User.set_usageToday (User.usageToday u + 1) u.

Definition updateUserUsage (today : string) (userId : string) (db : DB.t)
    : DB.t :=
  match list_find (λ u, User.id u = userId) (DB.users db) with
  | Some (userIndex, u) =>
      DB.set_users (<[userIndex := bumpUsage today u]> (DB.users db)) db
  | None => db
  end.

(** The entry [logApiUsage] builds for a presented key. *)
Definition logEntry (uuid now : string) (apiKey endpoint : string)
    (data : Log.payload) : Log.t :=
  Log.mk uuid (substring0 8 apiKey ++ "...") endpoint now data
         (or_default (Log.data_ip data) "unknown")
         (or_default (Log.data_userAgent data) "unknown").

(** [logApiUsage] reads the clock three times: for the entry, inside
    [validateApiKey], and as [toDateString()] inside [updateUserUsage].
    [apiKey] is a string; on [undefined] the code throws at [substring]
    before it writes anything. *)
Definition logApiUsage (uuid now validated_at today : string)
    (apiKey endpoint : string) (data : Log.payload) (db : DB.t)
    : DB.t * Log.t :=
  let logEntry := logEntry uuid now apiKey endpoint data in
  let logs := logEntry :: DB.logs db in
  let logs := if (1000 <? length logs)%nat then take 1000 logs else logs in
  let db := DB.set_logs logs db in
  let '(db, keyData) := validateApiKey validated_at apiKey db in
  match keyData with
  | Validation.Valid v =>
      (updateUserUsage today (Validation.userId v) db, logEntry)
  | Validation.Invalid => (db, logEntry)
  end.

Definition getUserUsage (today : string) (userId : string) (db : DB.t)
    : option Stats.t :=
  match list_find (λ u, User.id u = userId) (DB.users db) with
  | None => None
  | Some (_, user) =>
      let userApiKeys :=
        ApiKey.key <$> filter (λ k, ApiKey.userId k = userId) (DB.apiKeys db) in
      let userLogs :=
        filter (λ log, Exists (λ key, startsWith (Log.apiKey log)
                                        (substring0 8 key) = true)
                              userApiKeys)
               (DB.logs db) in
      let todayLogs :=
        filter (λ log, toDateString (Log.timestamp log) = today) userLogs in
      Some (Stats.mk (length userLogs) (length todayLogs)
              (if decide (User.apiLimit user = 0) then 1000
               else User.apiLimit user)
              (User.usageToday user)
              (truthy (Log.timestamp <$> head userLogs)))
  end.

End JSONDatabase.

(** ** The middleware [authenticateApiKey] *)

Module Request.
(** The three places a key is read from.  [body] is [None] when
    [req.body] itself is [undefined]. *)
Record t : Type := mk {
  x_api_key : option string;
  query_apiKey : option string;
  body : option (option string)
}.
End Request.

(** What the middleware does with the request: it calls [next()] with
    [req.user], [req.apiKey] and [req.apiKeyData] attached, or it answers
    with a status and an error message. *)
Inductive response : Type :=
  | Next (user : option User.t) (apiKey : string) (apiKeyData : Validation.info)
  | Json (status : nat) (error : string).

(** [req.headers['x-api-key'] || req.query.apiKey || req.body.apiKey];
    reading [apiKey] of an undefined body throws. *)
Definition extractApiKey (req : Request.t) : result (option string) :=
  match truthy (js_or (Request.x_api_key req) (Request.query_apiKey req)) with
  | Some k => Return (Some k)
  | None =>
      match Request.body req with
      | Some b => Return b
      | None => Throw "TypeError"
      end
  end.

Section Middleware.

Variable bcrypt_compare : string -> string -> bool.

Definition authenticateApiKey (now : string) (req : Request.t) (db : DB.t)
    : DB.t * response :=
  match extractApiKey req with
  | Throw _ => (db, Json 500 "Authentication failed")
  | Return apiKey =>
      match truthy apiKey with
      | None => (db, Json 401 "API key is required")
      | Some apiKey =>
          let '(db, validation) := validateApiKey bcrypt_compare now apiKey db in
          match validation with
          | Validation.Invalid => (db, Json 401 "Invalid or expired API key")
          | Validation.Valid v =>
              match Validation.user v with
              | Some user =>
                  if (User.apiLimit user <=? User.usageToday user)%nat
                  then (db, Json 429 "Daily API limit exceeded")
                  else (db, Next (Validation.user v) apiKey v)
              | None => (db, Next (Validation.user v) apiKey v)
              end
          end
      end
  end.

End Middleware.

(** ** Sequences of calls *)

(** One call of [logApiUsage] with everything it reads from its environment. *)
Module LogCall.
Record t : Type := mk {
  uuid : string;
  now : string;
  validated_at : string;
  today : string;
  apiKey : string;
  endpoint : string;
  data : Log.payload
}.

Definition entry (c : t) : Log.t :=
  logEntry (uuid c) (now c) (apiKey c) (endpoint c) (data c).
End LogCall.

(** One request through the middleware and, when admitted, through a
    handler that logs it: what the middleware and the later [logApiUsage]
    read from their environment. *)
Module Served.
Record t : Type := mk {
  arrived : string;            (* the clock inside the middleware's validation *)
  req : Request.t;
  uuid : string;
  now : string;
  validated_at : string;
  today : string;
  endpoint : string;
  data : Log.payload
}.
End Served.

(** The calls a client or an administrator can make on the store. *)
Inductive op : Type :=
  | CreateUser (uuid salt now username email password : string)
  | CreateApiKey (secret_uuid salt uuid now userId : string) (name : option string)
  | Validate (now apiKey : string)
  | Revoke (now keyId userId : string)
  | Authenticate (now : string) (req : Request.t)
  | LogUsage (c : LogCall.t).

Section Sequences.

Variable bcrypt_hash : string -> string -> string.
Variable bcrypt_compare : string -> string -> bool.

Definition record (c : LogCall.t) (db : DB.t) : DB.t * Log.t :=
  logApiUsage bcrypt_compare (LogCall.uuid c) (LogCall.now c)
    (LogCall.validated_at c) (LogCall.today c) (LogCall.apiKey c)
    (LogCall.endpoint c) (LogCall.data c) db.

(** The calls of a list, first to last. *)
Definition record_all (cs : list LogCall.t) (db : DB.t) : DB.t :=
  foldl (λ db c, fst (record c db)) db cs.

(** The same key validated once at each of the given times. *)
Fixpoint validate_all (nows : list string) (apiKey : string) (db : DB.t)
    : DB.t * list Validation.t :=
  match nows with
  | [] => (db, [])
  | now :: nows =>
      let '(db, r) := validateApiKey bcrypt_compare now apiKey db in
      let '(db, rs) := validate_all nows apiKey db in
      (db, r :: rs)
  end.

(** A request that is admitted and then recorded: the middleware, followed
    by [logApiUsage] with the key the middleware admitted.  The handlers
    mounted behind the middleware call [db.logApiUsage(apiKey, ...)] with
    the [apiKey] they read from the query or the body of the same request;
    a rejected request reaches no handler. *)
Definition serve (c : Served.t) (db : DB.t) : DB.t * response :=
  let '(db, r) := authenticateApiKey bcrypt_compare (Served.arrived c)
                    (Served.req c) db in
  match r with
  | Next _ apiKey _ =>
      (fst (logApiUsage bcrypt_compare (Served.uuid c) (Served.now c)
              (Served.validated_at c) (Served.today c) apiKey
              (Served.endpoint c) (Served.data c) db), r)
  | Json _ _ => (db, r)
  end.

(** Requests served one after the other, with the answer to each. *)
Fixpoint serve_all (cs : list Served.t) (db : DB.t) : DB.t * list response :=
  match cs with
  | [] => (db, [])
  | c :: cs =>
      let '(db, r) := serve c db in
      let '(db, rs) := serve_all cs db in
      (db, r :: rs)
  end.

Definition step (o : op) (db : DB.t) : DB.t :=
  match o with
  | CreateUser uuid salt now username email password =>
      fst (createUser bcrypt_hash uuid salt now username email password db)
  | CreateApiKey secret_uuid salt uuid now userId name =>
      fst (createApiKey bcrypt_hash secret_uuid salt uuid now userId name db)
  | Validate now apiKey => fst (validateApiKey bcrypt_compare now apiKey db)
  | Revoke now keyId userId => fst (revokeApiKey now keyId userId db)
  | Authenticate now req => fst (authenticateApiKey bcrypt_compare now req db)
  | LogUsage c => fst (record c db)
  end.

Definition run (ops : list op) (db : DB.t) : DB.t :=
  foldl (λ db o, step o db) db ops.

End Sequences.

(** The middleware answered [next()] for a key of user [uid]. *)
Definition admitted_for (uid : string) (r : response) : Prop :=
  match r with
  | Next _ _ v => Validation.userId v = uid
  | Json _ _ => False
  end.

Global Instance admitted_for_dec uid r : Decision (admitted_for uid r).
Proof. destruct r; simpl; apply _. Defined.

(** The requests recorded for a user on day [d], as the counter and its
    reset marker have them. *)
Definition used_on (d : string) (u : User.t) : nat :=
  if decide (User.lastResetDate u = Some d) then User.usageToday u else 0.

(** Every stored hash has bcrypt's header and every log entry begins as
    an issued key does. *)
Definition store_ok (db : DB.t) : Prop :=
  Forall (λ k, startsWith (ApiKey.key k) "$2" = true) (DB.apiKeys db)
  ∧ Forall (λ l, startsWith (Log.apiKey l) "shd_" = true) (DB.logs db).

(** ** A stand-in for the hashing primitive

    The theorems below hold for every [bcrypt_hash] and [bcrypt_compare].
    To run the model on concrete stores, this module gives one transparent
    pair with bcrypt's interface: the hash carries the [$2a$10$] header and
    the 22-character salt, and [compare] re-hashes the candidate with the
    salt it reads back from the stored hash, as bcrypt does. *)
Module Demo.
Definition bcrypt_hash (salt s : string) : string := "$2a$10$" ++ salt ++ s.

Definition bcrypt_compare (s hash : string) : bool :=
  bool_decide (bcrypt_hash (String.substring 7 22 hash) s = hash).

(** The UTC day of an ISO timestamp. *)
Definition toDateString (iso : string) : string := substring0 10 iso.

Definition salt : string := "N9qo8uLOickgx2ZMRZoMye".
Definition monday : string := "2026-11-02".
Definition tuesday : string := "2026-11-03".
Definition no_data : Log.payload := Log.mkPayload None None.

(** alice registers and is issued a key, which she later revokes. *)
Definition registered : DB.t :=
  fst (createUser bcrypt_hash "u-1" salt "2026-11-02T09:00:00.000Z"
         "alice" "alice@x.com" "secret1" DB.empty).
Definition issued : DB.t * IssuedKey.t :=
  createApiKey bcrypt_hash "3f2a-77c1" salt "k-1" "2026-11-02T09:01:00.000Z"
    "u-1" None registered.
Definition with_key : DB.t := fst issued.
Definition alice_key : string := IssuedKey.apiKey (snd issued).
Definition revoked : DB.t :=
  fst (revokeApiKey "2026-11-02T09:05:00.000Z" "k-1" "u-1" with_key).

Definition alice : User.t :=
  User.mk "u-1" "alice" "alice@x.com"
    (Some "$2a$10$N9qo8uLOickgx2ZMRZoMyesecret1") "user"
    "2026-11-02T09:00:00.000Z" None true 1000 0 None.

(** The same as a list of calls on the freshly initialised store. *)
Definition setup : list op :=
  [ CreateUser "u-1" salt "2026-11-02T09:00:00.000Z" "alice" "alice@x.com"
      "secret1";
    CreateApiKey "3f2a-77c1" salt "k-1" "2026-11-02T09:01:00.000Z" "u-1" None ].

(** The [n]-th request of day [d], carrying [apiKey] in the query string. *)
Definition carrying (apiKey : string) : Request.t :=
  Request.mk None (Some apiKey) None.
Definition request (n : nat) (apiKey d : string) : Served.t :=
  Served.mk (d ++ "T10:00:00.000Z") (carrying apiKey)
    ("l-" ++ pretty n) (d ++ "T10:00:01.000Z") (d ++ "T10:00:02.000Z") d
    "qrcode_generate" no_data.
Definition requests (n : nat) (d : string) : list Served.t :=
  (λ i, request i alice_key d) <$> seq 0 n.

(** The [n]-th of a series of [logApiUsage] calls with [apiKey]. *)
Definition call (n : nat) (apiKey : string) : LogCall.t :=
  LogCall.mk ("l-" ++ pretty n) "2026-11-02T10:00:00.000Z"
    "2026-11-02T10:00:00.000Z" monday apiKey "qrcode_generate" no_data.
Definition calls : list LogCall.t := (λ n, call n alice_key) <$> seq 0 1001.

(** The answer of a validation, when it is a valid one. *)
Definition info (r : Validation.t) : Validation.info :=
  match r with
  | Validation.Valid v => v
  | Validation.Invalid => Validation.mkInfo "" "" None [] 0
  end.

(** alice uses her key until the counter reaches her limit of 1000. *)
Definition after_monday : DB.t * list response :=
  serve_all bcrypt_compare (requests 1000 monday) with_key.
End Demo.

(** ** Login *)

(** [user.lastLogin = now]. *)
Definition set_lastLogin (now : string) (u : User.t) : User.t :=
  User.mk (User.id u) (User.username u) (User.email u) (User.password u)
    (User.role u) (User.createdAt u) (Some now) (User.isActive u)
    (User.apiLimit u) (User.usageToday u) (User.lastResetDate u).

Section Login.

Variable bcrypt_compare : string -> string -> bool.

(** [bcrypt.compare] rejects a hash that is not a string with an error of
    its own; the records [createUser] writes all carry a hash. *)
Definition authenticateUser (now : string) (email password : string)
    (db : DB.t) : DB.t * result User.t :=
  match list_find (λ u, User.email u = email ∧ User.isActive u = true)
                  (DB.users db) with
  | None => (db, Throw "Invalid credentials")
  | Some (i, user) =>
      match User.password user with
      | None => (db, Throw "Illegal arguments: string, undefined")
      | Some hash =>
          if bcrypt_compare password hash then
            let user := set_lastLogin now user in
            (DB.set_users (<[i := user]> (DB.users db)) db,
             Return (User.without_password user))
          else (db, Throw "Invalid credentials")
      end
  end.

End Login.

(** ** Short URLs: [shorturls.json] *)

Module ShortUrl.
(** The object the short-URL handler builds and hands to [createShortUrl]. *)
Record t : Type := mk {
  id : string;
  shortCode : string;
  originalUrl : string;
  shortUrl : string;
  createdAt : string;
  expiresAt : option string;
  password : option string;
  clickCount : nat;
  createdBy : option string;
  isActive : bool;
  lastAccessed : option string
}.

(** [url.clickCount = (url.clickCount || 0) + 1; url.lastAccessed = now]. *)
Definition click (now : string) (u : t) : t :=
  mk (id u) (shortCode u) (originalUrl u) (shortUrl u) (createdAt u)
     (expiresAt u) (password u) (clickCount u + 1) (createdBy u) (isActive u)
     (Some now).
End ShortUrl.

Definition createShortUrl (shortUrlData : ShortUrl.t) (urls : list ShortUrl.t)
    : list ShortUrl.t * ShortUrl.t :=
  ((urls ++ [shortUrlData])%list, shortUrlData).

Definition getShortUrlBySlug (shortCode : string) (urls : list ShortUrl.t)
    : option ShortUrl.t :=
  snd <$> list_find (λ url, ShortUrl.shortCode url = shortCode) urls.

Definition incrementShortUrlClick (now : string) (shortCode : string)
    (urls : list ShortUrl.t) : list ShortUrl.t :=
  match list_find (λ url, ShortUrl.shortCode url = shortCode) urls with
  | Some (urlIndex, url) => <[urlIndex := ShortUrl.click now url]> urls
  | None => urls
  end.

(** ** Download history: [downloads.json] *)

Module Download.
(** The three fields [logDownload] copies from the handler's result. *)
Record outcome : Type := mkOutcome {
  success : option bool;
  type : option string;
  size : option nat
}.

Record t : Type := mk {
  id : string;
  userId : string;
  platform : string;
  url : string;
  result : outcome;
  timestamp : string
}.
End Download.

Definition logDownload (uuid now : string) (userId platform url : string)
    (result : Download.outcome) (downloads : list Download.t)
    : list Download.t * Download.t :=
  let downloadEntry := Download.mk uuid userId platform url result now in
  let downloads := downloadEntry :: downloads in
  let downloads :=
    if (500 <? length downloads)%nat then take 500 downloads else downloads in
  (downloads, downloadEntry).

(** [limit] defaults to 50 when the caller leaves it out. *)
Definition getUserDownloads (userId : string) (limit : option nat)
    (downloads : list Download.t) : list Download.t :=
  take (default 50 limit) (filter (λ d, Download.userId d = userId) downloads).

(** ** Administrative statistics *)

Module AdminStats.
Record t : Type := mk {
  totalUsers : nat;
  activeUsers : nat;
  totalApiKeys : nat;
  activeApiKeys : nat;
  totalRequests : nat;
  todayRequests : nat;
  totalDownloads : nat;
  totalShortUrls : nat;
  endpointStats : gmap string nat;
  recentActivity : list Log.t
}.
End AdminStats.

(** The property names a fresh object literal inherits from
    [Object.prototype]: for these names [endpointStats[name]] is not
    [undefined] on an empty object. *)
Definition inherited_names : list string :=
  [ "constructor"; "__proto__"; "hasOwnProperty"; "isPrototypeOf";
    "propertyIsEnumerable"; "toLocaleString"; "toString"; "valueOf";
    "__defineGetter__"; "__defineSetter__"; "__lookupGetter__";
    "__lookupSetter__" ].

(** [endpointStats[log.endpoint] = (endpointStats[log.endpoint] || 0) + 1]
    over the log, first entry to last, for endpoint names outside
    [inherited_names]. *)
Definition countEndpoints (logs : list Log.t) : gmap string nat :=
  foldl (λ stats log,
           <[Log.endpoint log := default 0 (stats !! Log.endpoint log) + 1]> stats)
        ∅ logs.

Section AdminStatistics.

Variable toDateString : string -> string.

Definition getAdminStats (today : string) (db : DB.t)
    (downloads : list Download.t) (urls : list ShortUrl.t) : AdminStats.t :=
  let todayLogs :=
    filter (λ log, toDateString (Log.timestamp log) = today) (DB.logs db) in
  AdminStats.mk
    (length (DB.users db))
    (length (filter (λ u, User.isActive u = true) (DB.users db)))
    (length (DB.apiKeys db))
    (length (filter (λ k, ApiKey.isActive k = true) (DB.apiKeys db)))
    (length (DB.logs db))
    (length todayLogs)
    (length downloads)
    (length urls)
    (countEndpoints (DB.logs db))
    (take 20 (DB.logs db)).

End AdminStatistics.

(** ** The session and token middleware *)

Module WebRequest.
(** [session_user] is [req.session.user] when there is a session carrying
    one; [authorization] is the header of that name. *)
Record t : Type := mk {
  session_user : option User.t;
  authorization : option string;
  accepts_html : bool
}.
End WebRequest.

(** What these middlewares do with the request: call [next()] with
    [req.user] set, redirect, or answer with a status and a message. *)
Inductive web_response : Type :=
  | Proceed (user : option User.t)
  | Redirect (location : string)
  | Reject (status : nat) (error : string).

(** [s.split(' ')]. *)
Fixpoint split_spaces (s : string) : list string :=
  match s with
  | EmptyString => [EmptyString]
  | String c s' =>
      if Ascii.eqb c " "%char then EmptyString :: split_spaces s'
      else
        match split_spaces s' with
        | piece :: pieces => String c piece :: pieces
        | [] => [String c EmptyString]
        end
  end.

Section Tokens.

(** [jwt.sign({ userId }, secret, { expiresIn: '24h' })]. *)
Variable jwt_sign : string -> string.
(** [jwt.verify(token, secret, callback)] on a token that may be
    [undefined]: [None] for an error, otherwise [decoded.userId], which a
    payload may lack. *)
Variable jwt_verify : option string -> option (option string).

Definition generateToken (userId : string) : string := jwt_sign userId.

Definition authenticateJWT (req : WebRequest.t) (db : DB.t) : web_response :=
  match WebRequest.session_user req with
  | Some user => Proceed (Some user)
  | None =>
      match truthy (WebRequest.authorization req) with
      | Some authHeader =>
          let token := split_spaces authHeader !! 1 in
          match jwt_verify token with
          | None => Reject 403 "Invalid or expired token"
          | Some userId =>
              match userId ≫= (λ userId, getUserById userId db) with
              | Some user =>
                  if User.isActive user then Proceed (Some user)
                  else Reject 403 "User not found or inactive"
              | None => Reject 403 "User not found or inactive"
              end
          end
      | None =>
          if WebRequest.accepts_html req then Redirect "/login"
          else Reject 401 "Authentication required"
      end
  end.

End Tokens.

(** [req.user] is what an earlier middleware attached, if any. *)
Definition requireAdmin (user : option User.t) (accepts_html : bool)
    : web_response :=
  match user with
  | Some u =>
      if decide (User.role u = "admin") then Proceed user
      else if accepts_html then Redirect "/dashboard"
      else Reject 403 "Admin access required"
  | None =>
      if accepts_html then Redirect "/dashboard"
      else Reject 403 "Admin access required"
  end.

(** ** Every call that writes to the store *)

Inductive action : Type :=
  | Api (o : op)
  | Login (now email password : string).

Section Actions.

Variable bcrypt_hash : string -> string -> string.
Variable bcrypt_compare : string -> string -> bool.

Definition perform (a : action) (db : DB.t) : DB.t :=
  match a with
  | Api o => step bcrypt_hash bcrypt_compare o db
  | Login now email password =>
      fst (authenticateUser bcrypt_compare now email password db)
  end.

Definition perform_all (acts : list action) (db : DB.t) : DB.t :=
  foldl (λ db a, perform a db) db acts.

End Actions.

(** Two user records that differ at most in what a login or a recorded
    request writes: [lastLogin], [usageToday] and [lastResetDate]. *)
Definition same_account (u u' : User.t) : Prop :=
  User.id u' = User.id u
  ∧ User.username u' = User.username u
  ∧ User.email u' = User.email u
  ∧ User.password u' = User.password u
  ∧ User.role u' = User.role u
  ∧ User.createdAt u' = User.createdAt u
  ∧ User.isActive u' = User.isActive u
  ∧ User.apiLimit u' = User.apiLimit u.

(** Two key records that differ at most in what a validation or a
    revocation writes ([lastUsed], [usageCount], [isActive], [revokedAt]),
    the later one active only if the earlier one is. *)
Definition same_key (k k' : ApiKey.t) : Prop :=
  ApiKey.id k' = ApiKey.id k
  ∧ ApiKey.userId k' = ApiKey.userId k
  ∧ ApiKey.name k' = ApiKey.name k
  ∧ ApiKey.key k' = ApiKey.key k
  ∧ ApiKey.plainKey k' = ApiKey.plainKey k
  ∧ ApiKey.createdAt k' = ApiKey.createdAt k
  ∧ (ApiKey.isActive k' = true → ApiKey.isActive k = true).

(** A user as [createUser] writes it. *)
Definition plain_user (u : User.t) : Prop :=
  User.role u = "user"
  ∧ User.isActive u = true
  ∧ User.apiLimit u = 1000
  ∧ is_Some (User.password u).

(** ** The handlers behind the middleware

    The routes under [/api/download], [/api/tools] and [/api/media] are
    mounted behind [authenticateApiKey].  A handler that records the
    request calls [db.logApiUsage(apiKey, ...)], without awaiting it, with
    the [apiKey] it destructures from [req.query] (the GET handlers) or
    from [req.body] (the POST handlers); none of them reads [req.apiKey].
    A handler may also answer before it gets to that call, or have none. *)
Inductive handler : Type :=
  | LogsQueryKey
  | LogsBodyKey
  | LogsNothing.

(** The key the handler passes to [logApiUsage].  Nothing is recorded
    without one: destructuring an undefined body throws, and [logApiUsage]
    throws on an undefined key before it writes. *)
Definition handler_apiKey (h : handler) (req : Request.t) : option string :=
  match h with
  | LogsQueryKey => Request.query_apiKey req
  | LogsBodyKey =>
      match Request.body req with
      | Some apiKey => apiKey
      | None => None
      end
  | LogsNothing => None
  end.

Section Handlers.

Variable bcrypt_compare : string -> string -> bool.

(** One request through the middleware and the handler behind it, the
    write of [logApiUsage] completed; the answer is the middleware's. *)
Definition handle (h : handler) (c : Served.t) (db : DB.t) : DB.t * response :=
  let '(db, r) := authenticateApiKey bcrypt_compare (Served.arrived c)
                    (Served.req c) db in
  match r, handler_apiKey h (Served.req c) with
  | Next _ _ _, Some apiKey =>
      (fst (logApiUsage bcrypt_compare (Served.uuid c) (Served.now c)
              (Served.validated_at c) (Served.today c) apiKey
              (Served.endpoint c) (Served.data c) db), r)
  | _, _ => (db, r)
  end.

(** Requests handled one after the other, each recorded before the next
    one arrives. *)
Definition handle_all (cs : list (handler * Served.t)) (db : DB.t) : DB.t :=
  foldl (λ db hc, fst (handle hc.1 hc.2 db)) db cs.

End Handlers.

(** The key the handler logs, when it logs one, is the key the middleware
    read from the request. *)
Definition logs_admitted_key (h : handler) (req : Request.t) : Prop :=
  ∀ apiKey,
    handler_apiKey h req = Some apiKey →
    extractApiKey req = Return (Some apiKey).

(** No counter is past its limit. *)
Definition within_limits (db : DB.t) : Prop :=
  Forall (λ u, (User.usageToday u ≤ User.apiLimit u)%nat) (DB.users db).

(** ** More concrete data

    A transparent stand-in for the token primitive, with [jwt.sign] and
    [jwt.verify]'s interface, and a few records and calls to run the
    further methods on. *)
Module Sample.
Definition jwt_sign (userId : string) : string := "jwt." ++ userId.

Definition jwt_verify (token : option string) : option (option string) :=
  match token with
  | Some t =>
      if startsWith t "jwt."
      then Some (Some (String.substring 4 (String.length t - 4) t))
      else None
  | None => None
  end.

(** alice logs in. *)
Definition logged_in : DB.t * result User.t :=
  authenticateUser Demo.bcrypt_compare "2026-11-02T09:20:00.000Z"
    "alice@x.com" "secret1" Demo.registered.

(** bob registers, alice logs in, uses her key, revokes it, and somebody
    asks for her username once more. *)
Definition actions : list action :=
  [ Api (CreateUser "u-2" Demo.salt "2026-11-02T09:10:00.000Z" "bob"
           "bob@x.com" "hunter22");
    Login "2026-11-02T09:20:00.000Z" "alice@x.com" "secret1";
    Api (Validate "2026-11-02T09:21:00.000Z" Demo.alice_key);
    Api (LogUsage (Demo.call 0 Demo.alice_key));
    Api (Revoke "2026-11-02T09:30:00.000Z" "k-1" "u-1");
    Api (CreateUser "u-3" Demo.salt "2026-11-02T09:40:00.000Z" "alice"
           "eve@x.com" "letmein") ].

(** alice's key record as issued. *)
Definition alice_record : ApiKey.t :=
  ApiKey.mk "k-1" "u-1" "Default Key"
    "$2a$10$N9qo8uLOickgx2ZMRZoMyeshd_3f2a77c1" (Some "shd_3f2a77c1")
    "2026-11-02T09:01:00.000Z" None 0 true 100 ["*"] None.

(** bob registers too and is issued a key, which he uses on Monday
    until his counter reaches his limit. *)
Definition two_users : DB.t :=
  run Demo.bcrypt_hash Demo.bcrypt_compare
    [ CreateUser "u-2" Demo.salt "2026-11-02T09:10:00.000Z" "bob" "bob@x.com"
        "hunter22";
      CreateApiKey "9d4e-11b0" Demo.salt "k-2" "2026-11-02T09:11:00.000Z"
        "u-2" None ]
    Demo.with_key.
Definition bob_key : string := "shd_9d4e11b0".
Definition bob_at_limit : DB.t :=
  handle_all Demo.bcrypt_compare
    ((λ i, (LogsQueryKey, Demo.request i bob_key Demo.monday)) <$> seq 0 1000)
    two_users.

(** A POST with alice's key in the [x-api-key] header and bob's key in
    the body. *)
Definition crossed : Served.t :=
  Served.mk "2026-11-02T18:00:00.000Z"
    (Request.mk (Some Demo.alice_key) None (Some (Some bob_key)))
    "l-x" "2026-11-02T18:00:01.000Z" "2026-11-02T18:00:02.000Z" Demo.monday
    "qrcode_generate" Demo.no_data.

Definition url (code target : string) (creator : option string) : ShortUrl.t :=
  ShortUrl.mk ("s-" ++ code) code target ("https://your-api.vercel.app/s/" ++ code)
    "2026-11-02T11:00:00.000Z" None None 0 creator true None.

Definition urls : list ShortUrl.t :=
  [ url "docs" "https://example.org/docs" (Some Demo.alice_key);
    url "blog" "https://example.org/blog" None ].

Definition fetched : Download.outcome :=
  Download.mkOutcome (Some true) (Some "video") (Some 1024).

Definition downloads : list Download.t :=
  [ Download.mk "d-2" "u-2" "tiktok" "https://tiktok.example/2" fetched
      "2026-11-02T12:02:00.000Z";
    Download.mk "d-1" "u-1" "tiktok" "https://tiktok.example/1" fetched
      "2026-11-02T12:01:00.000Z" ].
End Sample.

(** * Properties *)

(** ** Searching a list that was updated in place *)

Section ListFind.
Context {A : Type} (P : A → Prop) `{!∀ x, Decision (P x)}.

(** Writing back, at the position [find] returned, a record that still
    satisfies the predicate leaves the answer of the next [find] there. *)
Lemma list_find_insert_same (l : list A) i x x' :
  list_find P l = Some (i, x) → P x' →
  list_find P (<[i := x']> l) = Some (i, x').
Proof.
  intros (Hi & _ & Hleast)%list_find_Some Hx'.
  apply list_find_insert_Some. right; left.
  split_and!; eauto using lookup_lt_Some.
Qed.

(** An update that does not change whether the record satisfies the
    predicate does not change which position [find] returns. *)
Lemma list_find_insert_stable (l : list A) i x x' j y :
  l !! i = Some x → (P x ↔ P x') →
  list_find P l = Some (j, y) →
  list_find P (<[i := x']> l) = Some (j, if decide (j = i) then x' else y).
Proof.
  intros Hi Hiff (Hj & Hy & Hleast)%list_find_Some.
  apply list_find_Some. case_decide as Hji.
  - subst j. assert (x = y) as -> by congruence.
    rewrite list_lookup_insert_eq by eauto using lookup_lt_Some.
    split_and!; [done | tauto |].
    intros k z Hk Hlt. rewrite list_lookup_insert_ne in Hk by lia. eauto.
  - rewrite list_lookup_insert_ne by done. split_and!; [done..|].
    intros k z Hk Hlt. destruct (decide (k = i)) as [->|Hki].
    + rewrite list_lookup_insert_eq in Hk by eauto using lookup_lt_Some.
      assert (z = x') as -> by congruence.
      intros Hx'. apply (Hleast i x Hi Hlt). tauto.
    + rewrite list_lookup_insert_ne in Hk by done. eauto.
Qed.

Lemma list_find_insert_stable_None (l : list A) i x x' :
  l !! i = Some x → (P x ↔ P x') →
  list_find P l = None → list_find P (<[i := x']> l) = None.
Proof.
  intros Hi Hiff Hnone. apply list_find_None, Forall_forall.
  rewrite list_find_None, Forall_forall in Hnone.
  intros z [k Hk]%list_elem_of_lookup.
  destruct (decide (k = i)) as [->|Hki].
  - rewrite list_lookup_insert_eq in Hk by eauto using lookup_lt_Some.
    assert (z = x') as -> by congruence.
    intros Hx'. apply (Hnone x); [by eapply list_elem_of_lookup_2 | tauto].
  - rewrite list_lookup_insert_ne in Hk by done.
    apply Hnone. by eapply list_elem_of_lookup_2.
Qed.
End ListFind.

Section Properties.

Local Open Scope nat_scope.

Variable bcrypt_hash : string -> string -> string.
Variable bcrypt_compare : string -> string -> bool.
Variable toDateString : string -> string.

(** ** What each method leaves alone *)

Lemma validateApiKey_users now apiKey db :
  DB.users (fst (validateApiKey bcrypt_compare now apiKey db)) = DB.users db.
Proof. unfold validateApiKey. by destruct (list_find _ _) as [[i k]|]. Qed.

Lemma validateApiKey_logs now apiKey db :
  DB.logs (fst (validateApiKey bcrypt_compare now apiKey db)) = DB.logs db.
Proof. unfold validateApiKey. by destruct (list_find _ _) as [[i k]|]. Qed.

Lemma updateUserUsage_logs today userId db :
  DB.logs (updateUserUsage today userId db) = DB.logs db.
Proof. unfold updateUserUsage. by destruct (list_find _ _) as [[i u]|]. Qed.

Lemma updateUserUsage_apiKeys today userId db :
  DB.apiKeys (updateUserUsage today userId db) = DB.apiKeys db.
Proof. unfold updateUserUsage. by destruct (list_find _ _) as [[i u]|]. Qed.

(** ** Registration *)

(** C6: [createUser] throws "User already exists" whenever a stored
    record, active or not, carries the requested username or email, and in
    that case the store it leaves is the store it was given. *)
Theorem createUser_duplicate uuid salt now username email password db u :
  u ∈ DB.users db →
  User.email u = email ∨ User.username u = username →
  createUser bcrypt_hash uuid salt now username email password db
  = (db, Throw "User already exists").
Proof.
  intros Hin Hdup. unfold createUser.
  destruct (list_find_elem_of
              (λ u, User.email u = email ∨ User.username u = username)
              (DB.users db) u Hin Hdup) as [[i v] ->].
  done.
Qed.

(** ** The usage log *)

Lemma record_entry c db :
  snd (record bcrypt_compare c db) = LogCall.entry c.
Proof.
  unfold record, logApiUsage.
  destruct (validateApiKey _ _ _ _) as [db' []]; done.
Qed.

Lemma record_logs c db :
  DB.logs (fst (record bcrypt_compare c db))
  = take 1000 (LogCall.entry c :: DB.logs db).
Proof.
  unfold record, logApiUsage. fold (LogCall.entry c).
  set (ls := if (1000 <? _)%nat then _ else _).
  assert (ls = take 1000 (LogCall.entry c :: DB.logs db)) as Hls.
  { subst ls. case_match eqn:Hlt; [done|].
    apply Nat.ltb_ge in Hlt. by rewrite take_ge. }
  pose proof (validateApiKey_logs (LogCall.validated_at c) (LogCall.apiKey c)
                (DB.set_logs ls db)) as Hv.
  destruct (validateApiKey _ _ _ _) as [db' [v|]]; simpl in *.
  - by rewrite updateUserUsage_logs, Hv.
  - by rewrite Hv.
Qed.

Lemma take_cons_take {A} n (x : A) l :
  take (S n) (x :: take (S n) l) = take (S n) (x :: l).
Proof. simpl. f_equal. rewrite take_take. f_equal. lia. Qed.

Lemma record_all_snoc cs c db :
  record_all bcrypt_compare (cs ++ [c]) db
  = fst (record bcrypt_compare c (record_all bcrypt_compare cs db)).
Proof. unfold record_all. by rewrite foldl_app. Qed.

(** Once at least one call was made, the log is the entries of the calls,
    latest first, followed by what was there before, cut at 1000. *)
Lemma record_all_logs cs db :
  cs ≠ [] →
  DB.logs (record_all bcrypt_compare cs db)
  = take 1000 (reverse (LogCall.entry <$> cs) ++ DB.logs db).
Proof.
  induction cs as [|c cs IH] using rev_ind; intros Hne; [done|].
  rewrite record_all_snoc, record_logs, fmap_app, reverse_app.
  destruct (decide (cs = [])) as [->|Hcs]; [done|].
  rewrite IH by done. apply (take_cons_take 999).
Qed.

(** C5: every call of [logApiUsage] puts its entry at the head of the log
    and keeps the first 1000 entries; after 1001 calls the log holds the
    entries of the last 1000 calls, the latest first. *)
Theorem usage_log_newest_first_capped :
  (∀ c db,
     snd (record bcrypt_compare c db) = LogCall.entry c
     ∧ DB.logs (fst (record bcrypt_compare c db))
       = take 1000 (LogCall.entry c :: DB.logs db))
  ∧ (∀ cs db,
       length cs = 1001 →
       DB.logs (record_all bcrypt_compare cs db)
       = reverse (LogCall.entry <$> drop 1 cs)
       ∧ length (DB.logs (record_all bcrypt_compare cs db)) = 1000).
Proof.
  split; [intros c db; split; [apply record_entry | apply record_logs]|].
  intros cs db Hlen.
  destruct cs as [|c0 cs]; [done|]. injection Hlen as Hlen.
  assert (DB.logs (record_all bcrypt_compare (c0 :: cs) db)
          = reverse (LogCall.entry <$> cs)) as ->.
  { rewrite record_all_logs by done.
    rewrite fmap_cons, reverse_cons, <-(assoc_L (++)).
    apply take_app_length'. by rewrite length_reverse, length_fmap. }
  split; [done|]. by rewrite length_reverse, length_fmap.
Qed.

(** ** Validation *)

(** A presented key that no active record accepts: the loop ends without
    a match, the answer is [{ valid: false }] and nothing is written. *)
Lemma validateApiKey_no_active_match now apiKey db :
  (∀ k, k ∈ DB.apiKeys db →
        bcrypt_compare apiKey (ApiKey.key k) = true →
        ApiKey.isActive k = false) →
  validateApiKey bcrypt_compare now apiKey db = (db, Validation.Invalid).
Proof.
  intros Hnone. unfold validateApiKey.
  destruct (list_find _ _) as [[i k]|] eqn:Hfind; [|done].
  apply list_find_Some in Hfind as (Hi%list_elem_of_lookup_2 & [Hc Ha] & _).
  specialize (Hnone k Hi Hc). congruence.
Qed.

(** What a successful validation found and wrote. *)
Lemma validateApiKey_Valid now apiKey db db' v :
  validateApiKey bcrypt_compare now apiKey db = (db', Validation.Valid v) →
  ∃ i k,
    list_find (λ k, bcrypt_compare apiKey (ApiKey.key k) = true
                    ∧ ApiKey.isActive k = true) (DB.apiKeys db) = Some (i, k)
    ∧ db' = DB.set_apiKeys (<[i := ApiKey.touch now k]> (DB.apiKeys db)) db
    ∧ Validation.userId v = ApiKey.userId k
    ∧ Validation.keyId v = ApiKey.id k
    ∧ Validation.user v = getUserById (ApiKey.userId k) db.
Proof.
  unfold validateApiKey.
  destruct (list_find _ _) as [[i k]|] eqn:Hfind; [|done].
  intros [= <- <-]. exists i, k. split_and!; done.
Qed.

(** The second of two validations finds the record the first one wrote. *)
Lemma validateApiKey_again now apiKey db i k :
  list_find (λ k, bcrypt_compare apiKey (ApiKey.key k) = true
                  ∧ ApiKey.isActive k = true) (DB.apiKeys db) = Some (i, k) →
  list_find (λ k, bcrypt_compare apiKey (ApiKey.key k) = true
                  ∧ ApiKey.isActive k = true)
            (DB.apiKeys (fst (validateApiKey bcrypt_compare now apiKey db)))
  = Some (i, ApiKey.touch now k).
Proof.
  intros Hfind. unfold validateApiKey. rewrite Hfind. simpl.
  eapply list_find_insert_same; [exact Hfind|].
  by apply list_find_Some in Hfind as (_ & ? & _).
Qed.

(** Validating a key once more finds the same record again. *)
Lemma validate_all_same_record nows apiKey : ∀ db i k,
  list_find (λ k, bcrypt_compare apiKey (ApiKey.key k) = true
                  ∧ ApiKey.isActive k = true) (DB.apiKeys db) = Some (i, k) →
  Forall (λ r, ∃ v, r = Validation.Valid v
                    ∧ Validation.userId v = ApiKey.userId k
                    ∧ Validation.keyId v = ApiKey.id k)
         (snd (validate_all bcrypt_compare nows apiKey db)).
Proof.
  induction nows as [|now nows IH]; intros db i k Hfind; simpl; [done|].
  pose proof (validateApiKey_again now apiKey db i k Hfind) as Hagain.
  destruct (validateApiKey bcrypt_compare now apiKey db) as [db1 r] eqn:Hv.
  specialize (IH db1 i (ApiKey.touch now k) Hagain).
  destruct (validate_all bcrypt_compare nows apiKey db1) as [db2 rs].
  simpl in *. constructor; [|done].
  unfold validateApiKey in Hv. rewrite Hfind in Hv.
  injection Hv as _ <-. eauto.
Qed.

(** C8: when a key is valid, every further validation of the same key
    resolves to the same user id and key id as the first, although each
    one changes the record's usage count and last-used time. *)
Theorem validateApiKey_same_identity now1 nows apiKey db db1 v1 :
  validateApiKey bcrypt_compare now1 apiKey db = (db1, Validation.Valid v1) →
  Forall (λ r, ∃ v, r = Validation.Valid v
                    ∧ Validation.userId v = Validation.userId v1
                    ∧ Validation.keyId v = Validation.keyId v1)
         (snd (validate_all bcrypt_compare nows apiKey db1)).
Proof.
  intros Hv1.
  destruct (validateApiKey_Valid _ _ _ _ _ Hv1) as (i & k & Hfind & _ & Hu & Hk & _).
  pose proof (validateApiKey_again now1 apiKey db i k Hfind) as Hagain.
  rewrite Hv1 in Hagain. simpl in Hagain.
  rewrite Hu, Hk. apply (validate_all_same_record nows apiKey db1 i _ Hagain).
Qed.

(** ** Revocation *)

Lemma revokeApiKey_found now keyId userId db i k :
  list_find (λ k, ApiKey.id k = keyId ∧ ApiKey.userId k = userId)
            (DB.apiKeys db) = Some (i, k) →
  revokeApiKey now keyId userId db
  = (DB.set_apiKeys (<[i := ApiKey.revoke now k]> (DB.apiKeys db)) db,
     Return true).
Proof. intros Hfind. unfold revokeApiKey. by rewrite Hfind. Qed.

Lemma revokeApiKey_Return now keyId userId db db' b :
  revokeApiKey now keyId userId db = (db', Return b) →
  ∃ i k,
    list_find (λ k, ApiKey.id k = keyId ∧ ApiKey.userId k = userId)
              (DB.apiKeys db) = Some (i, k)
    ∧ db' = DB.set_apiKeys (<[i := ApiKey.revoke now k]> (DB.apiKeys db)) db
    ∧ b = true.
Proof.
  unfold revokeApiKey.
  destruct (list_find _ _) as [[i k]|] eqn:Hfind; [|done].
  intros [= <- <-]. by exists i, k.
Qed.

(** C4: a presented key that no stored hash accepts, or that only revoked
    records accept, gets the bare [{ valid: false }] and the same 401 from
    the middleware, with nothing written in either case; and once a key
    was revoked, validating it gives [{ valid: false }]. *)
Theorem validateApiKey_fails_closed :
  (∀ now apiKey db,
     (∀ k, k ∈ DB.apiKeys db →
           bcrypt_compare apiKey (ApiKey.key k) = true →
           ApiKey.isActive k = false) →
     validateApiKey bcrypt_compare now apiKey db = (db, Validation.Invalid))
  ∧ (∀ now req presented apiKey db,
       extractApiKey req = Return presented →
       truthy presented = Some apiKey →
       (∀ k, k ∈ DB.apiKeys db →
             bcrypt_compare apiKey (ApiKey.key k) = true →
             ApiKey.isActive k = false) →
       authenticateApiKey bcrypt_compare now req db
       = (db, Json 401 "Invalid or expired API key"))
  ∧ (∀ now now' keyId userId apiKey db db',
       NoDup (ApiKey.id <$> DB.apiKeys db) →
       (∀ k, k ∈ DB.apiKeys db →
             bcrypt_compare apiKey (ApiKey.key k) = true →
             ApiKey.isActive k = true →
             ApiKey.id k = keyId ∧ ApiKey.userId k = userId) →
       revokeApiKey now keyId userId db = (db', Return true) →
       validateApiKey bcrypt_compare now' apiKey db'
       = (db', Validation.Invalid)).
Proof.
  split_and!.
  - apply validateApiKey_no_active_match.
  - intros now req presented apiKey db Hreq Hkey Hnone.
    unfold authenticateApiKey. rewrite Hreq, Hkey.
    by rewrite validateApiKey_no_active_match.
  - intros now now' keyId userId apiKey db db' Hids Honly Hrev.
    apply revokeApiKey_Return in Hrev as (i & k0 & Hfind & -> & _).
    apply list_find_Some in Hfind as (Hi & [Hid0 _] & _).
    apply validateApiKey_no_active_match. simpl.
    intros k [j Hj]%list_elem_of_lookup Hcmp.
    destruct (decide (j = i)) as [->|Hji].
    + rewrite list_lookup_insert_eq in Hj by eauto using lookup_lt_Some.
      by injection Hj as <-.
    + rewrite list_lookup_insert_ne in Hj by done.
      destruct (ApiKey.isActive k) eqn:Hact; [|done].
      destruct (Honly k) as [Hid _]; [by eapply list_elem_of_lookup_2|done..|].
      destruct Hji. eapply NoDup_lookup; [exact Hids|..].
      * by rewrite list_lookup_fmap, Hj.
      * rewrite list_lookup_fmap, Hi. simpl. congruence.
Qed.

(** C7, as the code has it: [revokeApiKey] throws exactly when no record,
    active or already revoked, has that id and that owner; the error is
    "API key not found" and nothing is written.  Otherwise it answers
    [true] and, in the first such record and in no other, sets [isActive]
    to false and [revokedAt] to the time of the call, whether or not the
    record was revoked before: every record stays in its place, no other
    field of it changes, and the users and the log are as they were. *)
Theorem revokeApiKey_spec now keyId userId db :
  ((∃ e, snd (revokeApiKey now keyId userId db) = Throw e)
   ↔ ¬ ∃ k, k ∈ DB.apiKeys db ∧ ApiKey.id k = keyId ∧ ApiKey.userId k = userId)
  ∧ ((¬ ∃ k, k ∈ DB.apiKeys db ∧ ApiKey.id k = keyId ∧ ApiKey.userId k = userId)
     → revokeApiKey now keyId userId db = (db, Throw "API key not found"))
  ∧ ((∃ k, k ∈ DB.apiKeys db ∧ ApiKey.id k = keyId ∧ ApiKey.userId k = userId)
     → ∃ i k k' db',
         revokeApiKey now keyId userId db = (db', Return true)
         ∧ DB.apiKeys db !! i = Some k
         ∧ ApiKey.id k = keyId ∧ ApiKey.userId k = userId
         ∧ (∀ j k1, j < i → DB.apiKeys db !! j = Some k1 →
              ¬ (ApiKey.id k1 = keyId ∧ ApiKey.userId k1 = userId))
         ∧ DB.users db' = DB.users db
         ∧ DB.logs db' = DB.logs db
         ∧ length (DB.apiKeys db') = length (DB.apiKeys db)
         ∧ (∀ j, j ≠ i → DB.apiKeys db' !! j = DB.apiKeys db !! j)
         ∧ DB.apiKeys db' !! i = Some k'
         ∧ ApiKey.isActive k' = false
         ∧ ApiKey.revokedAt k' = Some now
         ∧ ApiKey.id k' = ApiKey.id k
         ∧ ApiKey.userId k' = ApiKey.userId k
         ∧ ApiKey.name k' = ApiKey.name k
         ∧ ApiKey.key k' = ApiKey.key k
         ∧ ApiKey.plainKey k' = ApiKey.plainKey k
         ∧ ApiKey.createdAt k' = ApiKey.createdAt k
         ∧ ApiKey.lastUsed k' = ApiKey.lastUsed k
         ∧ ApiKey.usageCount k' = ApiKey.usageCount k
         ∧ ApiKey.rateLimit k' = ApiKey.rateLimit k
         ∧ ApiKey.endpoints k' = ApiKey.endpoints k).
Proof.
  unfold revokeApiKey.
  destruct (list_find _ _) as [[i k]|] eqn:Hfind.
  - pose proof Hfind as (Hi & [Hid Huid] & Hleast)%list_find_Some.
    assert (∃ k, k ∈ DB.apiKeys db
                 ∧ ApiKey.id k = keyId ∧ ApiKey.userId k = userId) as Hex.
    { exists k. split; [by eapply list_elem_of_lookup_2|done]. }
    split_and!.
    + split; [by intros [e [=]]|]. intros Hno. by destruct Hno.
    + intros Hno. by destruct Hno.
    + intros _. eexists i, k, (ApiKey.revoke now k), _.
      split; [reflexivity|]. simpl. split_and!; try done.
      * intros j k1 Hlt Hj. by apply (Hleast j k1).
      * apply length_insert.
      * intros j Hne. by apply list_lookup_insert_ne.
      * apply list_lookup_insert_eq. eauto using lookup_lt_Some.
  - assert (¬ ∃ k, k ∈ DB.apiKeys db
                   ∧ ApiKey.id k = keyId ∧ ApiKey.userId k = userId) as Hno.
    { intros (k & Hk & Hid & Huid).
      rewrite list_find_None, Forall_forall in Hfind. by apply (Hfind k). }
    split_and!.
    + split; [done|]. intros _. by eexists.
    + done.
    + intros Hex. by destruct Hno.
Qed.

(** ** Issuing a key *)

(** C1, what the code does: the record [createApiKey] appends to
    [api-keys.json] carries, next to the hash, the very secret it returns,
    in its [plainKey] field. *)
Theorem createApiKey_persists_plaintext secret_uuid salt uuid now userId name db :
  ∃ k,
    last (DB.apiKeys
            (fst (createApiKey bcrypt_hash secret_uuid salt uuid now userId
                    name db))) = Some k
    ∧ ApiKey.plainKey k
      = Some (IssuedKey.apiKey
                (snd (createApiKey bcrypt_hash secret_uuid salt uuid now
                        userId name db)))
    ∧ ApiKey.key k
      = bcrypt_hash salt
          (IssuedKey.apiKey
             (snd (createApiKey bcrypt_hash secret_uuid salt uuid now
                     userId name db))).
Proof.
  unfold createApiKey. simpl. eexists. rewrite last_snoc. done.
Qed.

(** The listing of a user's keys is built from [id], [name], [createdAt],
    [lastUsed] and [usageCount] only: it is the same whatever the stored
    [key] and [plainKey] are. *)
Lemma getApiKeysByUser_ignores_secret userId db (scrub : ApiKey.t → ApiKey.t) :
  (∀ k, ApiKey.id (scrub k) = ApiKey.id k
        ∧ ApiKey.userId (scrub k) = ApiKey.userId k
        ∧ ApiKey.name (scrub k) = ApiKey.name k
        ∧ ApiKey.createdAt (scrub k) = ApiKey.createdAt k
        ∧ ApiKey.lastUsed (scrub k) = ApiKey.lastUsed k
        ∧ ApiKey.usageCount (scrub k) = ApiKey.usageCount k
        ∧ ApiKey.isActive (scrub k) = ApiKey.isActive k) →
  getApiKeysByUser userId (DB.set_apiKeys (scrub <$> DB.apiKeys db) db)
  = getApiKeysByUser userId db.
Proof.
  intros Hscrub. unfold getApiKeysByUser. simpl.
  induction (DB.apiKeys db) as [|k ks IH]; [done|].
  destruct (Hscrub k) as (Hid & Hu & Hn & Hc & Hl & Hcount & Ha).
  rewrite fmap_cons, !filter_cons.
  rewrite Hu, Ha. case_decide; [|done].
  rewrite !fmap_cons, IH. f_equal. by rewrite Hid, Hn, Hc, Hl, Hcount.
Qed.

(** ** The daily counter *)

Lemma bumpUsage_usageToday d u :
  User.usageToday (bumpUsage d u) = used_on d u + 1.
Proof. unfold bumpUsage, used_on. by case_decide. Qed.

Lemma bumpUsage_lastResetDate d u :
  User.lastResetDate (bumpUsage d u) = Some d.
Proof. unfold bumpUsage. by case_decide. Qed.

Lemma bumpUsage_id d u : User.id (bumpUsage d u) = User.id u.
Proof. unfold bumpUsage. by case_decide. Qed.

Lemma bumpUsage_apiLimit d u : User.apiLimit (bumpUsage d u) = User.apiLimit u.
Proof. unfold bumpUsage. by case_decide. Qed.

Lemma used_on_le d u : used_on d u ≤ User.usageToday u.
Proof. unfold used_on. case_decide; lia. Qed.

Lemma getUserById_found uid db j u :
  list_find (λ u, User.id u = uid) (DB.users db) = Some (j, u) →
  getUserById uid db = Some (User.without_password u).
Proof. intros Hfind. unfold getUserById. by rewrite Hfind. Qed.

(** ** The middleware *)

Lemma authenticateApiKey_users now req db :
  DB.users (fst (authenticateApiKey bcrypt_compare now req db)) = DB.users db.
Proof.
  unfold authenticateApiKey.
  destruct (extractApiKey req) as [presented|]; [|done].
  destruct (truthy presented) as [apiKey|]; [|done].
  pose proof (validateApiKey_users now apiKey db) as Hv.
  destruct (validateApiKey _ _ _ _) as [db1 [v|]]; [|done].
  destruct (Validation.user v) as [u|]; [|done].
  by case_match.
Qed.

(** With a key that validates, the middleware answers 429 when the owner's
    counter has reached the limit and calls [next()] otherwise. *)
Lemma authenticateApiKey_decision now req presented apiKey db db1 v :
  extractApiKey req = Return presented →
  truthy presented = Some apiKey →
  validateApiKey bcrypt_compare now apiKey db = (db1, Validation.Valid v) →
  authenticateApiKey bcrypt_compare now req db
  = (db1,
     match Validation.user v with
     | Some u =>
         if decide (User.apiLimit u ≤ User.usageToday u)
         then Json 429 "Daily API limit exceeded"
         else Next (Some u) apiKey v
     | None => Next None apiKey v
     end).
Proof.
  intros Hreq Hkey Hv. unfold authenticateApiKey. rewrite Hreq, Hkey, Hv.
  destruct (Validation.user v) as [u|]; [|done].
  case_decide as Hle.
  - apply Nat.leb_le in Hle. by rewrite Hle.
  - apply Nat.leb_nle in Hle. by rewrite Hle.
Qed.

(** What [next()] tells about the request and the store. *)
Lemma authenticateApiKey_Next now req db db1 usr apiKey v :
  authenticateApiKey bcrypt_compare now req db = (db1, Next usr apiKey v) →
  validateApiKey bcrypt_compare now apiKey db = (db1, Validation.Valid v)
  ∧ usr = Validation.user v
  ∧ (∀ u, Validation.user v = Some u → User.usageToday u < User.apiLimit u).
Proof.
  unfold authenticateApiKey.
  destruct (extractApiKey req) as [presented|]; [|done].
  destruct (truthy presented) as [apiKey'|]; [|done].
  destruct (validateApiKey _ _ _ _) as [db1' [v'|]] eqn:Hv; [|done].
  destruct (Validation.user v') as [u|] eqn:Hu.
  - case_match eqn:Hle; [done|]. intros [= <- <- <- <-].
    apply Nat.leb_nle in Hle.
    split_and!; [done..|]. intros u' Hu'. rewrite Hu in Hu'.
    injection Hu' as <-. lia.
  - intros [= <- <- <- <-]. split_and!; [done..|]. intros u'. by rewrite Hu.
Qed.

(** ** Recording an admitted request *)

Lemma updateUserUsage_users today uid db :
  DB.users (updateUserUsage today uid db)
  = match list_find (λ u, User.id u = uid) (DB.users db) with
    | Some (j, u) => <[j := bumpUsage today u]> (DB.users db)
    | None => DB.users db
    end.
Proof. unfold updateUserUsage. by destruct (list_find _ _) as [[j u]|]. Qed.

(** With a key that an active record accepts, [logApiUsage] touches that
    record once more and bumps the counter of the record's owner. *)
Lemma logApiUsage_valid uuid now validated_at today apiKey endpoint data db i k :
  list_find (λ k, bcrypt_compare apiKey (ApiKey.key k) = true
                  ∧ ApiKey.isActive k = true) (DB.apiKeys db) = Some (i, k) →
  DB.apiKeys (fst (logApiUsage bcrypt_compare uuid now validated_at today
                     apiKey endpoint data db))
  = <[i := ApiKey.touch validated_at k]> (DB.apiKeys db)
  ∧ DB.users (fst (logApiUsage bcrypt_compare uuid now validated_at today
                     apiKey endpoint data db))
    = DB.users (updateUserUsage today (ApiKey.userId k) db).
Proof.
  intros Hfind. unfold logApiUsage, validateApiKey. simpl.
  rewrite Hfind. simpl.
  rewrite updateUserUsage_apiKeys, !updateUserUsage_users. done.
Qed.

(** An admitted request, once logged with the key the middleware attached,
    has touched the key record twice and bumped the owner once. *)
Lemma admitted_then_logged now req db db1 usr apiKey v
    uuid logged_at validated_at today endpoint data :
  authenticateApiKey bcrypt_compare now req db = (db1, Next usr apiKey v) →
  ∃ i k,
    DB.apiKeys db !! i = Some k
    ∧ ApiKey.id k = Validation.keyId v
    ∧ ApiKey.userId k = Validation.userId v
    ∧ DB.apiKeys (fst (logApiUsage bcrypt_compare uuid logged_at validated_at
                         today apiKey endpoint data db1))
      = <[i := ApiKey.touch validated_at (ApiKey.touch now k)]> (DB.apiKeys db)
    ∧ DB.users (fst (logApiUsage bcrypt_compare uuid logged_at validated_at
                       today apiKey endpoint data db1))
      = DB.users (updateUserUsage today (Validation.userId v) db).
Proof.
  intros (Hv & _ & _)%authenticateApiKey_Next.
  destruct (validateApiKey_Valid _ _ _ _ _ Hv) as (i & k & Hfind & Hdb1 & Hu & Hk & _).
  pose proof (validateApiKey_again now apiKey db i k Hfind) as Hagain.
  rewrite Hv in Hagain. simpl in Hagain.
  destruct (logApiUsage_valid uuid logged_at validated_at today apiKey
              endpoint data db1 i _ Hagain) as [Hkeys Husers].
  exists i, k.
  apply list_find_Some in Hfind as (Hi & _ & _).
  split_and!; [done..| |].
  - rewrite Hkeys, Hdb1. simpl. by rewrite list_insert_insert_eq.
  - rewrite Husers, Hu. simpl. rewrite !updateUserUsage_users.
    by rewrite Hdb1.
Qed.

(** ** Serving requests *)

Lemma serve_Json c db db' status error :
  serve bcrypt_compare c db = (db', Json status error) →
  DB.users db' = DB.users db.
Proof.
  unfold serve.
  pose proof (authenticateApiKey_users (Served.arrived c) (Served.req c) db) as Hu.
  destruct (authenticateApiKey _ _ _ _) as [db1 [usr apiKey v|s e]];
    intros [= <-]; done.
Qed.

Lemma serve_Next c db db' usr apiKey v :
  serve bcrypt_compare c db = (db', Next usr apiKey v) →
  DB.users db' = DB.users (updateUserUsage (Served.today c) (Validation.userId v) db).
Proof.
  unfold serve.
  destruct (authenticateApiKey _ _ _ _) as [db1 [usr' apiKey' v'|s e]] eqn:Hauth;
    intros [= <- <- <- <-].
  destruct (admitted_then_logged _ _ _ _ _ _ _ (Served.uuid c) (Served.now c)
              (Served.validated_at c) (Served.today c) (Served.endpoint c)
              (Served.data c) Hauth) as (i & k & _ & _ & _ & _ & Husers).
  done.
Qed.

(** One served request of day [d] adds one to the day's count of the user
    it was admitted for, and leaves every other user's count and limit. *)
Lemma serve_tracks c db db' r d uid j u :
  serve bcrypt_compare c db = (db', r) →
  Served.today c = d →
  list_find (λ u, User.id u = uid) (DB.users db) = Some (j, u) →
  ∃ u',
    list_find (λ u, User.id u = uid) (DB.users db') = Some (j, u')
    ∧ User.apiLimit u' = User.apiLimit u
    ∧ used_on d u'
      = used_on d u + (if decide (admitted_for uid r) then 1 else 0).
Proof.
  intros Hserve Hd Hfind. destruct r as [usr apiKey v|status error].
  - apply serve_Next in Hserve. rewrite updateUserUsage_users, Hd in Hserve.
    rewrite Hserve. simpl.
    destruct (decide (Validation.userId v = uid)) as [->|Hother].
    + rewrite Hfind. exists (bumpUsage d u).
      split_and!.
      * eapply list_find_insert_same; [done|]. cbv beta. rewrite bumpUsage_id.
        by apply list_find_Some in Hfind as (_ & ? & _).
      * apply bumpUsage_apiLimit.
      * unfold used_on at 1.
        rewrite bumpUsage_lastResetDate, decide_True by done.
        apply bumpUsage_usageToday.
    + destruct (list_find (λ u, User.id u = Validation.userId v) (DB.users db))
        as [[j' u'']|] eqn:Hfind'; [|exists u; split_and!; [done..|lia]].
      apply list_find_Some in Hfind' as (Hj' & Hid' & _).
      exists u. split_and!; [|done|lia].
      pose proof (list_find_insert_stable (λ u, User.id u = uid)
                    (DB.users db) j' u'' (bumpUsage d u'') j u Hj') as Hst.
      rewrite Hst; [|by rewrite bumpUsage_id|done].
      rewrite decide_False; [done|]. intros ->.
      apply list_find_Some in Hfind as (Hj & Hid & _). congruence.
  - apply serve_Json in Hserve. rewrite Hserve. exists u.
    split_and!; [done..|]. simpl. lia.
Qed.

Lemma serve_all_tracks cs d uid j : ∀ db dbN rs u,
  serve_all bcrypt_compare cs db = (dbN, rs) →
  Forall (λ c, Served.today c = d) cs →
  list_find (λ u, User.id u = uid) (DB.users db) = Some (j, u) →
  ∃ u',
    list_find (λ u, User.id u = uid) (DB.users dbN) = Some (j, u')
    ∧ User.apiLimit u' = User.apiLimit u
    ∧ used_on d u' = used_on d u + length (filter (admitted_for uid) rs).
Proof.
  induction cs as [|c cs IH]; intros db dbN rs u Hall Hday Hfind; simpl in Hall.
  - injection Hall as <- <-. exists u. split_and!; [done..|]. simpl. lia.
  - destruct (serve bcrypt_compare c db) as [db1 r] eqn:Hserve.
    destruct (serve_all bcrypt_compare cs db1) as [db2 rs'] eqn:Hrest.
    injection Hall as <- <-.
    apply Forall_cons in Hday as [Hc Hday].
    destruct (serve_tracks _ _ _ _ _ _ _ _ Hserve Hc Hfind) as (u1 & Hfind1 & Hlim1 & Hused1).
    destruct (IH _ _ _ _ Hrest Hday Hfind1) as (u2 & Hfind2 & Hlim2 & Hused2).
    exists u2. split_and!; [done|congruence|].
    rewrite Hused2, Hused1, filter_cons.
    case_decide; simpl; lia.
Qed.

(** ** The daily quota *)

(** A user whose counter has reached the limit is answered 429 whatever
    the day of the request is, and the answer leaves the counter and the
    reset marker as they were: the reset in [updateUserUsage] is only
    reached by requests the middleware admits. *)
Lemma saturated_stays_denied now req presented apiKey db db1 v j u :
  extractApiKey req = Return presented →
  truthy presented = Some apiKey →
  validateApiKey bcrypt_compare now apiKey db = (db1, Validation.Valid v) →
  list_find (λ u, User.id u = Validation.userId v) (DB.users db) = Some (j, u) →
  User.apiLimit u ≤ User.usageToday u →
  authenticateApiKey bcrypt_compare now req db
  = (db1, Json 429 "Daily API limit exceeded")
  ∧ DB.users db1 = DB.users db.
Proof.
  intros Hreq Hkey Hv Hfind Hle.
  rewrite (authenticateApiKey_decision _ _ _ _ _ _ _ Hreq Hkey Hv).
  destruct (validateApiKey_Valid _ _ _ _ _ Hv) as (i & k & _ & -> & Hu & _ & Huser).
  rewrite Huser, <-Hu, (getUserById_found _ _ _ _ Hfind). simpl.
  by rewrite decide_True.
Qed.

(** C3: with a key that validates, the middleware answers 429 exactly
    when the owner's stored [usageToday] has reached the stored
    [apiLimit]; it decides without writing to the users file; and when
    the requests admitted for a user on one day, each logged, number as
    many as the limit, the user's next request is answered 429. *)
Theorem daily_quota_check :
  (∀ now req presented apiKey db db1 v j u,
     extractApiKey req = Return presented →
     truthy presented = Some apiKey →
     validateApiKey bcrypt_compare now apiKey db = (db1, Validation.Valid v) →
     list_find (λ u, User.id u = Validation.userId v) (DB.users db)
     = Some (j, u) →
     authenticateApiKey bcrypt_compare now req db
     = (db1,
        if decide (User.apiLimit u ≤ User.usageToday u)
        then Json 429 "Daily API limit exceeded"
        else Next (Some (User.without_password u)) apiKey v))
  ∧ (∀ now req db,
       DB.users (fst (authenticateApiKey bcrypt_compare now req db))
       = DB.users db)
  ∧ (∀ cs d uid j u db dbN rs,
       list_find (λ u, User.id u = uid) (DB.users db) = Some (j, u) →
       used_on d u = 0 →
       Forall (λ c, Served.today c = d) cs →
       serve_all bcrypt_compare cs db = (dbN, rs) →
       length (filter (admitted_for uid) rs) = User.apiLimit u →
       ∀ now req presented apiKey db' v,
         extractApiKey req = Return presented →
         truthy presented = Some apiKey →
         validateApiKey bcrypt_compare now apiKey dbN
         = (db', Validation.Valid v) →
         Validation.userId v = uid →
         authenticateApiKey bcrypt_compare now req dbN
         = (db', Json 429 "Daily API limit exceeded")).
Proof.
  split_and!.
  - intros now req presented apiKey db db1 v j u Hreq Hkey Hv Hfind.
    rewrite (authenticateApiKey_decision _ _ _ _ _ _ _ Hreq Hkey Hv).
    destruct (validateApiKey_Valid _ _ _ _ _ Hv) as (i & k & _ & -> & Hu & _ & Huser).
    by rewrite Huser, <-Hu, (getUserById_found _ _ _ _ Hfind).
  - apply authenticateApiKey_users.
  - intros cs d uid j u db dbN rs Hfind Hfresh Hday Hall Hcount
      now req presented apiKey db' v Hreq Hkey Hv Huid.
    destruct (serve_all_tracks _ _ _ _ _ _ _ _ Hall Hday Hfind)
      as (u' & Hfind' & Hlim & Hused).
    rewrite <-Huid in Hfind'.
    apply (saturated_stays_denied _ _ _ _ _ _ _ _ _ Hreq Hkey Hv Hfind').
    pose proof (used_on_le d u'). lia.
Qed.

(** C10, as the code has it: a request the middleware admits and
    [logApiUsage] then records with the attached key adds 2 to the key
    record's [usageCount]; the owner's [usageToday] goes up by 1 when the
    reset marker is the day of the recording, and is set to 1 otherwise. *)
Theorem usage_counts_per_request now req db db1 usr apiKey v
    uuid logged_at validated_at today endpoint data db2 e :
  authenticateApiKey bcrypt_compare now req db = (db1, Next usr apiKey v) →
  logApiUsage bcrypt_compare uuid logged_at validated_at today apiKey
    endpoint data db1 = (db2, e) →
  (∃ i k k',
     DB.apiKeys db !! i = Some k
     ∧ ApiKey.id k = Validation.keyId v
     ∧ DB.apiKeys db2 !! i = Some k'
     ∧ ApiKey.id k' = ApiKey.id k
     ∧ ApiKey.usageCount k' = ApiKey.usageCount k + 2)
  ∧ (∀ j u,
       list_find (λ u, User.id u = Validation.userId v) (DB.users db)
       = Some (j, u) →
       ∃ u',
         DB.users db2 !! j = Some u'
         ∧ User.id u' = User.id u
         ∧ User.usageToday u'
           = if decide (User.lastResetDate u = Some today)
             then User.usageToday u + 1 else 1).
Proof.
  intros Hauth Hlog.
  destruct (admitted_then_logged _ _ _ _ _ _ _ uuid logged_at validated_at
              today endpoint data Hauth)
    as (i & k & Hi & Hid & _ & Hkeys & Husers).
  rewrite Hlog in Hkeys, Husers. simpl in Hkeys, Husers. split.
  - exists i, k, (ApiKey.touch validated_at (ApiKey.touch now k)).
    split_and!; [done..| |done|simpl; lia].
    rewrite Hkeys. apply list_lookup_insert_eq. eauto using lookup_lt_Some.
  - intros j u Hfind. exists (bumpUsage today u).
    rewrite Husers, updateUserUsage_users, Hfind.
    apply list_find_Some in Hfind as (Hj & _ & _).
    split_and!.
    + apply list_lookup_insert_eq. eauto using lookup_lt_Some.
    + apply bumpUsage_id.
    + rewrite bumpUsage_usageToday. unfold used_on. by case_decide.
Qed.

(** ** The join of the usage log with a user's keys *)

Lemma startsWith_cons s a p :
  startsWith s (String a p) = true →
  ∃ s', s = String a s' ∧ startsWith s' p = true.
Proof.
  destruct s as [|b s']; [done|]. cbn [startsWith].
  intros [Hab Hp]%andb_prop. apply Ascii.eqb_eq in Hab as <-. eauto.
Qed.

Lemma startsWith_bcrypt h :
  startsWith h "$2" = true → ∃ h', h = String "$" (String "2" h').
Proof.
  intros (h1 & -> & (h2 & -> & _)%startsWith_cons)%startsWith_cons. eauto.
Qed.

Lemma startsWith_shd s :
  startsWith s "shd_" = true → ∃ s', s = "shd_" ++ s'.
Proof.
  intros (s1 & -> & (s2 & -> & (s3 & -> & (s4 & -> & _)%startsWith_cons
           )%startsWith_cons)%startsWith_cons)%startsWith_cons.
  by exists s4.
Qed.

(** The prefix of the presented key that [logApiUsage] stores begins as
    the key does. *)
Lemma logEntry_apiKey_shd uuid now apiKey endpoint data :
  startsWith apiKey "shd_" = true →
  startsWith (Log.apiKey (logEntry uuid now apiKey endpoint data)) "shd_" = true.
Proof. intros [s' ->]%startsWith_shd. reflexivity. Qed.

(** An entry that begins [shd_] does not begin with the first 8
    characters of a hash that begins [$2]. *)
Lemma prefix_join_fails entry hash :
  startsWith entry "shd_" = true →
  startsWith hash "$2" = true →
  startsWith entry (substring0 8 hash) = false.
Proof. intros [s' ->]%startsWith_shd [h' ->]%startsWith_bcrypt. reflexivity. Qed.

Lemma filter_none {A} (P : A → Prop) `{!∀ x, Decision (P x)} (l : list A) :
  Forall (λ x, ¬ P x) l → filter P l = [].
Proof.
  induction 1 as [|x l Hx _ IH]; [done|]. by rewrite filter_cons_False.
Qed.

Lemma getUserUsage_no_match today uid db stats :
  store_ok db →
  getUserUsage toDateString today uid db = Some stats →
  Stats.totalRequests stats = 0
  ∧ Stats.todayRequests stats = 0
  ∧ Stats.lastRequest stats = None.
Proof.
  intros [Hkeys Hlogs]. unfold getUserUsage.
  destruct (list_find _ _) as [[j user]|]; [|done].
  rewrite (filter_none _ (DB.logs db)); [by intros [= <-]|].
  eapply Forall_impl; [exact Hlogs|]. simpl.
  intros l Hl (h & Hh & Hmatch)%Exists_exists.
  apply list_elem_of_fmap in Hh as (k & -> & Hk%list_elem_of_filter).
  destruct Hk as [_ Hk]. rewrite Forall_forall in Hkeys.
  rewrite (prefix_join_fails _ _ Hl (Hkeys k Hk)) in Hmatch. done.
Qed.

Lemma validateApiKey_store_ok now apiKey db :
  store_ok db → store_ok (fst (validateApiKey bcrypt_compare now apiKey db)).
Proof.
  intros [Hkeys Hlogs]. unfold validateApiKey.
  destruct (list_find _ _) as [[i k]|] eqn:Hfind; [|done].
  apply list_find_Some in Hfind as (Hi & _ & _).
  split; [|done]. simpl. apply Forall_insert; [done|].
  by apply (Forall_lookup_1 _ _ _ _ Hkeys Hi).
Qed.

Lemma updateUserUsage_store_ok today uid db :
  store_ok db → store_ok (updateUserUsage today uid db).
Proof.
  intros [Hkeys Hlogs].
  split; by rewrite ?updateUserUsage_apiKeys, ?updateUserUsage_logs.
Qed.

Lemma authenticateApiKey_store_ok now req db :
  store_ok db → store_ok (fst (authenticateApiKey bcrypt_compare now req db)).
Proof.
  intros Hok. unfold authenticateApiKey.
  destruct (extractApiKey req) as [presented|]; [|done].
  destruct (truthy presented) as [apiKey|]; [|done].
  pose proof (validateApiKey_store_ok now apiKey db Hok) as Hv.
  destruct (validateApiKey _ _ _ _) as [db1 [v|]]; [|done].
  destruct (Validation.user v) as [u|]; [|done].
  by case_match.
Qed.

Lemma record_store_ok c db :
  startsWith (LogCall.apiKey c) "shd_" = true →
  store_ok db → store_ok (fst (record bcrypt_compare c db)).
Proof.
  intros Hshd [Hkeys Hlogs]. split; [|rewrite record_logs].
  - unfold record, logApiUsage.
    set (db0 := DB.set_logs _ db).
    assert (store_ok db0) as Hok0.
    { split; [done|]. unfold db0, DB.set_logs. cbn [DB.logs]. case_match.
      - apply Forall_take, Forall_cons. split; [|done].
        by apply logEntry_apiKey_shd.
      - apply Forall_cons. split; [|done]. by apply logEntry_apiKey_shd. }
    pose proof (validateApiKey_store_ok (LogCall.validated_at c)
                  (LogCall.apiKey c) db0 Hok0) as Hv.
    destruct (validateApiKey _ _ _ _) as [db1 [v|]]; simpl in *.
    + by apply updateUserUsage_store_ok.
    + apply Hv.
  - apply Forall_take, Forall_cons. split; [|done].
    by apply logEntry_apiKey_shd.
Qed.

Section Reachable.

(** bcrypt's output begins with its version header. *)
Hypothesis bcrypt_header :
  ∀ salt s, startsWith (bcrypt_hash salt s) "$2" = true.

Lemma step_store_ok o db :
  (∀ c, o = LogUsage c → startsWith (LogCall.apiKey c) "shd_" = true) →
  store_ok db → store_ok (step bcrypt_hash bcrypt_compare o db).
Proof.
  intros Hshd Hok. destruct o; simpl.
  - unfold createUser. by destruct (list_find _ _).
  - destruct Hok as [Hkeys Hlogs]. split; [|done]. simpl.
    apply Forall_app. split; [done|]. apply Forall_singleton.
    apply bcrypt_header.
  - by apply validateApiKey_store_ok.
  - destruct Hok as [Hkeys Hlogs]. unfold revokeApiKey.
    destruct (list_find _ _) as [[i k]|] eqn:Hfind; [|done].
    apply list_find_Some in Hfind as (Hi & _ & _).
    split; [|done]. simpl. apply Forall_insert; [done|].
    by apply (Forall_lookup_1 _ _ _ _ Hkeys Hi).
  - by apply authenticateApiKey_store_ok.
  - apply record_store_ok; [|done]. by apply Hshd.
Qed.

Lemma run_store_ok ops : ∀ db,
  (∀ c, LogUsage c ∈ ops → startsWith (LogCall.apiKey c) "shd_" = true) →
  store_ok db → store_ok (run bcrypt_hash bcrypt_compare ops db).
Proof.
  induction ops as [|o ops IH]; intros db Hshd Hok; [done|].
  apply IH.
  - intros c Hc. apply Hshd. by right.
  - apply step_store_ok; [|done]. intros c ->. apply Hshd. by left.
Qed.

End Reachable.

(** C9, as the code has it: when bcrypt's hashes begin [$2] and every
    logged request presented a key that begins [shd_], as issued keys do,
    then after any calls on the freshly initialised store [getUserUsage]
    reports no request at all for any user: 0 in total, 0 today and no
    last request. *)
Theorem getUserUsage_counts_nothing ops today uid stats :
  (∀ salt s, startsWith (bcrypt_hash salt s) "$2" = true) →
  (∀ c, LogUsage c ∈ ops → startsWith (LogCall.apiKey c) "shd_" = true) →
  getUserUsage toDateString today uid
    (run bcrypt_hash bcrypt_compare ops DB.empty) = Some stats →
  Stats.totalRequests stats = 0
  ∧ Stats.todayRequests stats = 0
  ∧ Stats.lastRequest stats = None.
Proof.
  intros Hhdr Hshd. apply getUserUsage_no_match.
  apply run_store_ok; [done..|]. by split.
Qed.

End Properties.

(** * The theorems on concrete stores *)

(** Closes a decidable statement about concrete data by evaluating its
    decision procedure. *)
Ltac by_evaluation := apply (bool_decide_unpack _); vm_compute; exact I.

(** The same for a statement about every member of a concrete list. *)
Ltac for_each_by_evaluation :=
  refine (proj1 (Forall_forall _ _) _); by_evaluation.

(** C6 at work: bob asks for alice's username. *)
Lemma createUser_duplicate_witness :
  createUser Demo.bcrypt_hash "u-2" Demo.salt "2026-11-02T09:30:00.000Z"
    "alice" "bob@x.com" "hunter2" Demo.registered
  = (Demo.registered, Throw "User already exists").
Proof.
  apply (createUser_duplicate Demo.bcrypt_hash "u-2" Demo.salt
           "2026-11-02T09:30:00.000Z" "alice" "bob@x.com" "hunter2"
           Demo.registered Demo.alice).
  - vm_compute. constructor.
  - right. reflexivity.
Defined.

(** C5 at work: 1001 calls with alice's key. *)
Lemma usage_log_newest_first_capped_witness :
  DB.logs (record_all Demo.bcrypt_compare Demo.calls Demo.with_key)
  = reverse (LogCall.entry <$> drop 1 Demo.calls)
  ∧ length (DB.logs (record_all Demo.bcrypt_compare Demo.calls Demo.with_key))
    = 1000.
Proof.
  apply (proj2 (usage_log_newest_first_capped Demo.bcrypt_compare)).
  vm_compute. reflexivity.
Defined.

(** C8 at work: alice's key validated three times. *)
Lemma validateApiKey_same_identity_witness :
  Forall (λ r, ∃ v, r = Validation.Valid v
                    ∧ Validation.userId v = "u-1"
                    ∧ Validation.keyId v = "k-1")
    (snd (validate_all Demo.bcrypt_compare
            ["2026-11-02T09:03:00.000Z"; "2026-11-02T09:04:00.000Z"]
            Demo.alice_key
            (fst (validateApiKey Demo.bcrypt_compare "2026-11-02T09:02:00.000Z"
                    Demo.alice_key Demo.with_key)))).
Proof.
  apply (validateApiKey_same_identity Demo.bcrypt_compare
           "2026-11-02T09:02:00.000Z"
           ["2026-11-02T09:03:00.000Z"; "2026-11-02T09:04:00.000Z"]
           Demo.alice_key Demo.with_key
           (fst (validateApiKey Demo.bcrypt_compare "2026-11-02T09:02:00.000Z"
                   Demo.alice_key Demo.with_key))
           (Demo.info
              (snd (validateApiKey Demo.bcrypt_compare "2026-11-02T09:02:00.000Z"
                      Demo.alice_key Demo.with_key)))).
  vm_compute. reflexivity.
Defined.

(** C4 at work: a key nobody was issued, and alice's key after she revoked
    it. *)
Lemma validateApiKey_fails_closed_witness :
  validateApiKey Demo.bcrypt_compare "2026-11-02T09:10:00.000Z" "garbage"
    Demo.with_key = (Demo.with_key, Validation.Invalid)
  ∧ authenticateApiKey Demo.bcrypt_compare "2026-11-02T09:10:00.000Z"
      (Demo.carrying Demo.alice_key) Demo.revoked
    = (Demo.revoked, Json 401 "Invalid or expired API key")
  ∧ validateApiKey Demo.bcrypt_compare "2026-11-02T09:10:00.000Z"
      Demo.alice_key Demo.revoked = (Demo.revoked, Validation.Invalid).
Proof.
  destruct (validateApiKey_fails_closed Demo.bcrypt_compare)
    as (Hnone & Hauth & Hrevoked).
  split_and!.
  - apply Hnone. for_each_by_evaluation.
  - apply (Hauth _ _ (Some Demo.alice_key) Demo.alice_key);
      [reflexivity | reflexivity |].
    for_each_by_evaluation.
  - apply (Hrevoked "2026-11-02T09:05:00.000Z" _ "k-1" "u-1" _ Demo.with_key).
    + by_evaluation.
    + for_each_by_evaluation.
    + vm_compute. reflexivity.
Defined.

(** C7, the claim as written fails: alice's key is already revoked, no
    active key with that id is hers, and revoking it again succeeds. *)
Lemma revokeApiKey_twice_succeeds :
  ¬ (∃ k, k ∈ DB.apiKeys Demo.revoked
          ∧ ApiKey.id k = "k-1" ∧ ApiKey.userId k = "u-1"
          ∧ ApiKey.isActive k = true)
  ∧ snd (revokeApiKey "2026-11-03T08:00:00.000Z" "k-1" "u-1" Demo.revoked)
    = Return true.
Proof.
  split; [|vm_compute; reflexivity].
  assert (Forall (λ k, ApiKey.isActive k = false) (DB.apiKeys Demo.revoked))
    as Hall by by_evaluation.
  rewrite Forall_forall in Hall.
  intros (k & Hk & _ & _ & Hact). specialize (Hall k Hk). congruence.
Qed.

(** C7 at work: nobody holds a key [k-2], so revoking it throws and
    leaves the store; alice revokes her key [k-1], and the record, still
    the only one, is inactive and carries the time of the call; revoked
    once more the next day, it carries the time of that call. *)
Lemma revokeApiKey_spec_witness :
  revokeApiKey "2026-11-02T09:05:00.000Z" "k-2" "u-1" Demo.with_key
  = (Demo.with_key, Throw "API key not found")
  ∧ (∃ i k k' db',
       revokeApiKey "2026-11-02T09:05:00.000Z" "k-1" "u-1" Demo.with_key
       = (db', Return true)
       ∧ DB.apiKeys Demo.with_key !! i = Some k
       ∧ DB.apiKeys db' !! i = Some k'
       ∧ length (DB.apiKeys db') = length (DB.apiKeys Demo.with_key)
       ∧ ApiKey.isActive k' = false
       ∧ ApiKey.revokedAt k' = Some "2026-11-02T09:05:00.000Z"
       ∧ ApiKey.id k' = ApiKey.id k
       ∧ ApiKey.key k' = ApiKey.key k)
  ∧ (∃ i k k' db',
       revokeApiKey "2026-11-03T08:00:00.000Z" "k-1" "u-1" Demo.revoked
       = (db', Return true)
       ∧ DB.apiKeys Demo.revoked !! i = Some k
       ∧ DB.apiKeys db' !! i = Some k'
       ∧ length (DB.apiKeys db') = length (DB.apiKeys Demo.revoked)
       ∧ ApiKey.isActive k' = false
       ∧ ApiKey.revokedAt k' = Some "2026-11-03T08:00:00.000Z").
Proof.
  split_and!.
  - apply (proj1 (proj2 (revokeApiKey_spec "2026-11-02T09:05:00.000Z" "k-2"
                           "u-1" Demo.with_key))).
    assert (Forall (λ k, ApiKey.id k ≠ "k-2") (DB.apiKeys Demo.with_key))
      as Hall by by_evaluation.
    rewrite Forall_forall in Hall.
    intros (k & Hk & Hid & _). by apply (Hall k Hk).
  - destruct (proj2 (proj2 (revokeApiKey_spec "2026-11-02T09:05:00.000Z" "k-1"
                              "u-1" Demo.with_key)))
      as (i & k & k' & db' & Hrev & Hi & _ & _ & _ & _ & _ & Hlen & _ & Hi'
          & Hact & Hat & Hid & _ & _ & Hkey & _).
    + exists Sample.alice_record. split; [|done]. vm_compute. constructor.
    + by exists i, k, k', db'.
  - destruct (proj2 (proj2 (revokeApiKey_spec "2026-11-03T08:00:00.000Z" "k-1"
                              "u-1" Demo.revoked)))
      as (i & k & k' & db' & Hrev & Hi & _ & _ & _ & _ & _ & Hlen & _ & Hi'
          & Hact & Hat & _).
    + exists (ApiKey.revoke "2026-11-02T09:05:00.000Z" Sample.alice_record).
      split; [|done]. vm_compute. constructor.
    + by exists i, k, k', db'.
Defined.

(** C3 at work: alice's first request of Monday is admitted, and after
    1000 admitted and logged requests that day the next one is answered
    429. *)
Lemma daily_quota_check_witness :
  authenticateApiKey Demo.bcrypt_compare "2026-11-02T10:00:00.000Z"
    (Demo.carrying Demo.alice_key) Demo.with_key
  = (fst (validateApiKey Demo.bcrypt_compare "2026-11-02T10:00:00.000Z"
            Demo.alice_key Demo.with_key),
     Next (Some (User.without_password Demo.alice)) Demo.alice_key
       (Demo.info
          (snd (validateApiKey Demo.bcrypt_compare "2026-11-02T10:00:00.000Z"
                  Demo.alice_key Demo.with_key))))
  ∧ authenticateApiKey Demo.bcrypt_compare "2026-11-02T23:00:00.000Z"
      (Demo.carrying Demo.alice_key) (fst Demo.after_monday)
    = (fst (validateApiKey Demo.bcrypt_compare "2026-11-02T23:00:00.000Z"
              Demo.alice_key (fst Demo.after_monday)),
       Json 429 "Daily API limit exceeded").
Proof.
  destruct (daily_quota_check Demo.bcrypt_compare) as (Hexact & _ & Hnext).
  split.
  - rewrite (Hexact "2026-11-02T10:00:00.000Z" (Demo.carrying Demo.alice_key)
               (Some Demo.alice_key) Demo.alice_key Demo.with_key
               (fst (validateApiKey Demo.bcrypt_compare
                       "2026-11-02T10:00:00.000Z" Demo.alice_key Demo.with_key))
               (Demo.info
                  (snd (validateApiKey Demo.bcrypt_compare
                          "2026-11-02T10:00:00.000Z" Demo.alice_key
                          Demo.with_key)))
               0 Demo.alice);
      [reflexivity | reflexivity | reflexivity
      | vm_compute; reflexivity | vm_compute; reflexivity].
  - apply (Hnext (Demo.requests 1000 Demo.monday) Demo.monday "u-1" 0 Demo.alice
             Demo.with_key (fst Demo.after_monday) (snd Demo.after_monday))
      with (presented := Some Demo.alice_key) (apiKey := Demo.alice_key)
           (v := Demo.info
                   (snd (validateApiKey Demo.bcrypt_compare
                           "2026-11-02T23:00:00.000Z" Demo.alice_key
                           (fst Demo.after_monday)))).
    + vm_compute. reflexivity.
    + reflexivity.
    + by_evaluation.
    + vm_compute. reflexivity.
    + vm_compute. reflexivity.
    + reflexivity.
    + reflexivity.
    + vm_compute. reflexivity.
    + vm_compute. reflexivity.
Defined.

(** C2, what the code does: alice used up Monday's 1000 requests; her
    request on Tuesday is answered 429, and her counter and its reset
    marker stay at 1000 and Monday. *)
Theorem quota_not_reset_after_rollover :
  (λ u, (User.apiLimit u, User.usageToday u, User.lastResetDate u))
  <$> DB.users (fst Demo.after_monday) = [(1000, 1000, Some Demo.monday)]
  ∧ snd (serve Demo.bcrypt_compare
           (Demo.request 1000 Demo.alice_key Demo.tuesday)
           (fst Demo.after_monday))
    = Json 429 "Daily API limit exceeded"
  ∧ (λ u, (User.apiLimit u, User.usageToday u, User.lastResetDate u))
    <$> DB.users (fst (serve Demo.bcrypt_compare
                         (Demo.request 1000 Demo.alice_key Demo.tuesday)
                         (fst Demo.after_monday)))
    = [(1000, 1000, Some Demo.monday)].
Proof. vm_compute. done. Qed.

(** C10, the claim as written fails: alice made two requests on Monday;
    her first request on Tuesday is admitted and logged, and her counter
    goes from 2 to 1. *)
Lemma usageToday_restarts_on_new_day :
  User.usageToday
  <$> DB.users (fst (serve_all Demo.bcrypt_compare
                       (Demo.requests 2 Demo.monday) Demo.with_key)) = [2]
  ∧ admitted_for "u-1"
      (snd (serve Demo.bcrypt_compare
              (Demo.request 2 Demo.alice_key Demo.tuesday)
              (fst (serve_all Demo.bcrypt_compare
                      (Demo.requests 2 Demo.monday) Demo.with_key))))
  ∧ User.usageToday
    <$> DB.users (fst (serve Demo.bcrypt_compare
                         (Demo.request 2 Demo.alice_key Demo.tuesday)
                         (fst (serve_all Demo.bcrypt_compare
                                 (Demo.requests 2 Demo.monday) Demo.with_key))))
    = [1].
Proof. vm_compute. done. Qed.

(** C10 at work: alice's first request. *)
Lemma usage_counts_per_request_witness :
  (∃ i k k',
     DB.apiKeys Demo.with_key !! i = Some k
     ∧ ApiKey.id k = "k-1"
     ∧ DB.apiKeys (fst (serve Demo.bcrypt_compare
                          (Demo.request 0 Demo.alice_key Demo.monday)
                          Demo.with_key)) !! i = Some k'
     ∧ ApiKey.id k' = ApiKey.id k
     ∧ ApiKey.usageCount k' = ApiKey.usageCount k + 2)
  ∧ (∀ j u,
       list_find (λ u, User.id u = "u-1") (DB.users Demo.with_key) = Some (j, u) →
       ∃ u',
         DB.users (fst (serve Demo.bcrypt_compare
                          (Demo.request 0 Demo.alice_key Demo.monday)
                          Demo.with_key)) !! j = Some u'
         ∧ User.id u' = User.id u
         ∧ User.usageToday u'
           = if decide (User.lastResetDate u = Some Demo.monday)
             then User.usageToday u + 1 else 1).
Proof.
  apply (usage_counts_per_request Demo.bcrypt_compare
           "2026-11-02T10:00:00.000Z" (Demo.carrying Demo.alice_key)
           Demo.with_key
           (fst (authenticateApiKey Demo.bcrypt_compare
                   "2026-11-02T10:00:00.000Z" (Demo.carrying Demo.alice_key)
                   Demo.with_key))
           (Some (User.without_password Demo.alice)) Demo.alice_key
           (Demo.info
              (snd (validateApiKey Demo.bcrypt_compare
                      "2026-11-02T10:00:00.000Z" Demo.alice_key Demo.with_key)))
           "l-0" "2026-11-02T10:00:01.000Z" "2026-11-02T10:00:02.000Z"
           Demo.monday "qrcode_generate" Demo.no_data
           (fst (serve Demo.bcrypt_compare
                   (Demo.request 0 Demo.alice_key Demo.monday) Demo.with_key))
           (snd (logApiUsage Demo.bcrypt_compare "l-0"
                   "2026-11-02T10:00:01.000Z" "2026-11-02T10:00:02.000Z"
                   Demo.monday Demo.alice_key "qrcode_generate" Demo.no_data
                   (fst (authenticateApiKey Demo.bcrypt_compare
                           "2026-11-02T10:00:00.000Z"
                           (Demo.carrying Demo.alice_key) Demo.with_key))))).
  - vm_compute. reflexivity.
  - vm_compute. reflexivity.
Defined.

(** C9, the claim as written fails: a request logged with a presented key
    that begins like alice's stored hash is counted for alice. *)
Lemma getUserUsage_counts_hash_like_key :
  getUserUsage Demo.toDateString Demo.monday "u-1"
    (run Demo.bcrypt_hash Demo.bcrypt_compare
       (Demo.setup ++ [LogUsage (Demo.call 0 "$2a$10$N")]) DB.empty)
  = Some (Stats.mk 1 1 1000 0 (Some "2026-11-02T10:00:00.000Z")).
Proof. vm_compute. reflexivity. Qed.

(** C9 at work: a request logged with alice's key is not counted for her. *)
Lemma getUserUsage_counts_nothing_witness :
  getUserUsage Demo.toDateString Demo.monday "u-1"
    (run Demo.bcrypt_hash Demo.bcrypt_compare
       (Demo.setup ++ [LogUsage (Demo.call 0 Demo.alice_key)]) DB.empty)
  = Some (Stats.mk 0 0 1000 1 None)
  ∧ Stats.totalRequests (Stats.mk 0 0 1000 1 None) = 0
  ∧ Stats.todayRequests (Stats.mk 0 0 1000 1 None) = 0
  ∧ Stats.lastRequest (Stats.mk 0 0 1000 1 None) = None.
Proof.
  assert (getUserUsage Demo.toDateString Demo.monday "u-1"
            (run Demo.bcrypt_hash Demo.bcrypt_compare
               (Demo.setup ++ [LogUsage (Demo.call 0 Demo.alice_key)]) DB.empty)
          = Some (Stats.mk 0 0 1000 1 None)) as Hstats
    by (vm_compute; reflexivity).
  split; [exact Hstats|].
  apply (getUserUsage_counts_nothing Demo.bcrypt_hash Demo.bcrypt_compare
           Demo.toDateString
           (Demo.setup ++ [LogUsage (Demo.call 0 Demo.alice_key)])
           Demo.monday "u-1" (Stats.mk 0 0 1000 1 None)).
  - intros salt s. reflexivity.
  - intros c Hc.
    assert (Forall (λ o, ∀ c, o = LogUsage c →
                              startsWith (LogCall.apiKey c) "shd_" = true)
              (Demo.setup ++ [LogUsage (Demo.call 0 Demo.alice_key)])) as Hall.
    { repeat constructor; intros c' [= <-]. reflexivity. }
    rewrite Forall_forall in Hall. by apply (Hall _ Hc).
  - exact Hstats.
Defined.

(** * Further properties of the store and the middlewares *)

Section MoreProperties.

Local Open Scope nat_scope.
Local Set Default Proof Using "Type".

Variable bcrypt_hash : string -> string -> string.
Variable bcrypt_compare : string -> string -> bool.
Variable toDateString : string -> string.
Variable jwt_sign : string -> string.
Variable jwt_verify : option string -> option (option string).

(** ** Login *)

(** X1: [authenticateUser] answers an unknown or deactivated email and a
    wrong password alike: it throws "Invalid credentials" and writes
    nothing. *)
Theorem authenticateUser_fails_alike now email password db :
  (∀ u, u ∈ DB.users db → User.email u = email → User.isActive u = false)
  ∨ (∃ i u hash,
       list_find (λ u, User.email u = email ∧ User.isActive u = true)
                 (DB.users db) = Some (i, u)
       ∧ User.password u = Some hash
       ∧ bcrypt_compare password hash = false) →
  authenticateUser bcrypt_compare now email password db
  = (db, Throw "Invalid credentials").
Proof.
  unfold authenticateUser. intros [Hnone|(i & u & hash & -> & -> & ->)]; [|done].
  destruct (list_find _ _) as [[i u]|] eqn:Hfind; [|done].
  apply list_find_Some in Hfind as (Hi%list_elem_of_lookup_2 & [He Ha] & _).
  specialize (Hnone u Hi He). congruence.
Qed.

Lemma authenticateUser_Return now email password db db' u :
  authenticateUser bcrypt_compare now email password db = (db', Return u) →
  ∃ i u0 hash,
    list_find (λ u, User.email u = email ∧ User.isActive u = true)
              (DB.users db) = Some (i, u0)
    ∧ User.password u0 = Some hash
    ∧ bcrypt_compare password hash = true
    ∧ u = User.without_password (set_lastLogin now u0)
    ∧ db' = DB.set_users (<[i := set_lastLogin now u0]> (DB.users db)) db.
Proof.
  unfold authenticateUser.
  destruct (list_find _ _) as [[i u0]|] eqn:Hfind; [|done].
  destruct (User.password u0) as [hash|] eqn:Hpw; [|done].
  destruct (bcrypt_compare password hash) eqn:Hcmp; [|done].
  intros [= <- <-]. by exists i, u0, hash.
Qed.

(** X2: a successful login is the login of the first active account with
    that email whose stored hash accepts the password; it stamps
    [lastLogin] on that one record and leaves every other user record, the
    keys and the log as they were. *)
Theorem authenticateUser_success now email password db db' u :
  authenticateUser bcrypt_compare now email password db = (db', Return u) →
  ∃ i u0 hash,
    DB.users db !! i = Some u0
    ∧ User.email u0 = email ∧ User.isActive u0 = true
    ∧ (∀ j u1, j < i → DB.users db !! j = Some u1 →
         ¬ (User.email u1 = email ∧ User.isActive u1 = true))
    ∧ User.password u0 = Some hash ∧ bcrypt_compare password hash = true
    ∧ User.id u = User.id u0 ∧ User.username u = User.username u0
    ∧ User.lastLogin u = Some now
    ∧ DB.users db' !! i = Some (set_lastLogin now u0)
    ∧ (∀ j, j ≠ i → DB.users db' !! j = DB.users db !! j)
    ∧ length (DB.users db') = length (DB.users db)
    ∧ DB.apiKeys db' = DB.apiKeys db
    ∧ DB.logs db' = DB.logs db.
Proof.
  intros (i & u0 & hash & Hfind & Hpw & Hcmp & -> & ->)%authenticateUser_Return.
  apply list_find_Some in Hfind as (Hi & [He Ha] & Hfirst).
  exists i, u0, hash. simpl. split_and!; try done.
  - intros j u1 Hlt Hj. by apply (Hfirst j).
  - apply list_lookup_insert_eq. eauto using lookup_lt_Some.
  - intros j Hj. by apply list_lookup_insert_ne.
  - apply length_insert.
Qed.

Lemma createUser_Return uuid salt now username email password db db' u :
  createUser bcrypt_hash uuid salt now username email password db
  = (db', Return u) →
  list_find (λ u, User.email u = email ∨ User.username u = username)
            (DB.users db) = None
  ∧ db' = DB.set_users
            (DB.users db
             ++ [User.mk uuid username email
                   (Some (bcrypt_hash salt password)) "user" now None true
                   1000 0 None]) db
  ∧ u = User.without_password
          (User.mk uuid username email (Some (bcrypt_hash salt password))
             "user" now None true 1000 0 None).
Proof.
  unfold createUser. destruct (list_find _ _) as [[i v]|] eqn:Hfind; [done|].
  intros [= <- <-]. done.
Qed.

(** X3: registration followed by login.  When [bcrypt.compare] accepts a
    password against its own hash, the account [createUser] has just
    written logs in with the same email and password, and the login
    returns that account. *)
Theorem register_then_login uuid salt now username email password db db1 u now' :
  bcrypt_compare password (bcrypt_hash salt password) = true →
  createUser bcrypt_hash uuid salt now username email password db
  = (db1, Return u) →
  ∃ db2 u',
    authenticateUser bcrypt_compare now' email password db1 = (db2, Return u')
    ∧ User.id u' = uuid
    ∧ User.username u' = username
    ∧ User.email u' = email
    ∧ User.password u' = None
    ∧ User.lastLogin u' = Some now'.
Proof.
  intros Hcmp (Hnone & -> & _)%createUser_Return.
  unfold authenticateUser. simpl.
  rewrite list_find_app_r.
  2:{ apply list_find_None. rewrite list_find_None in Hnone.
      eapply Forall_impl; [exact Hnone|].
      intros x Hx [Hemail _]. apply Hx. by left. }
  simpl. rewrite decide_True by done. simpl. rewrite Hcmp.
  eexists _, _. split; [reflexivity|]. done.
Qed.

(** ** Where the key of a request is read *)

Lemma truthy_js_or a b :
  truthy (js_or a b) = match truthy a with Some s => Some s | None => truthy b end.
Proof.
  unfold js_or. destruct (truthy a) as [s|] eqn:Ha; [|done].
  unfold truthy in *. destruct a as [s'|]; [|done].
  case_decide; simplify_eq. simpl. by rewrite decide_False.
Qed.

Lemma truthy_Some v k : truthy v = Some k → v = Some k ∧ k ≠ "".
Proof.
  unfold truthy. destruct v as [s|]; [|done]. case_decide; [done|].
  by intros [= <-].
Qed.

Lemma authenticateApiKey_ext now req req' db :
  extractApiKey req = extractApiKey req' →
  authenticateApiKey bcrypt_compare now req db
  = authenticateApiKey bcrypt_compare now req' db.
Proof. intros Heq. unfold authenticateApiKey. by rewrite Heq. Qed.

(** X4: a request with no key in the header, the query or the body is
    answered 401 "API key is required"; when the body itself is missing as
    well, the read of [req.body.apiKey] throws and the answer is 500.  In
    both cases nothing is validated and nothing is written. *)
Theorem authenticateApiKey_no_key now req db :
  truthy (Request.x_api_key req) = None →
  truthy (Request.query_apiKey req) = None →
  match Request.body req with
  | Some b =>
      truthy b = None →
      authenticateApiKey bcrypt_compare now req db
      = (db, Json 401 "API key is required")
  | None =>
      authenticateApiKey bcrypt_compare now req db
      = (db, Json 500 "Authentication failed")
  end.
Proof.
  intros Hh Hq. unfold authenticateApiKey, extractApiKey.
  rewrite truthy_js_or, Hh, Hq.
  destruct (Request.body req) as [b|]; [|done]. by intros ->.
Qed.

(** X5: the key is taken from the header, else from the query, else from
    the body, the first non-empty one winning: the middleware treats the
    request exactly as it treats one that carries that key in the header
    alone. *)
Theorem authenticateApiKey_key_precedence now req db k :
  truthy (Request.x_api_key req) = Some k
  ∨ (truthy (Request.x_api_key req) = None
     ∧ truthy (Request.query_apiKey req) = Some k)
  ∨ (truthy (Request.x_api_key req) = None
     ∧ truthy (Request.query_apiKey req) = None
     ∧ ∃ b, Request.body req = Some b ∧ truthy b = Some k) →
  authenticateApiKey bcrypt_compare now req db
  = authenticateApiKey bcrypt_compare now
      (Request.mk (Some k) None (Some None)) db.
Proof.
  intros Hwhere. apply authenticateApiKey_ext.
  assert (extractApiKey req = Return (Some k)) as ->.
  { unfold extractApiKey. rewrite truthy_js_or.
    destruct Hwhere as [->|[[-> ->]|(-> & -> & b & -> & Hk)]]; [done..|].
    by apply truthy_Some in Hk as [-> _]. }
  assert (k ≠ "") as Hk.
  { destruct Hwhere as [H|[[_ H]|(_ & _ & b & _ & H)]];
      by apply truthy_Some in H as [_ ?]. }
  unfold extractApiKey, js_or, truthy. simpl. by rewrite !decide_False.
Qed.

(** ** What leaves the store *)

Lemma getUserById_Some uid db u :
  getUserById uid db = Some u →
  ∃ j u0,
    list_find (λ u, User.id u = uid) (DB.users db) = Some (j, u0)
    ∧ u = User.without_password u0.
Proof.
  unfold getUserById. destruct (list_find _ _) as [[j u0]|]; [|done].
  intros [= <-]. eauto.
Qed.

(** X6: no stored password hash leaves the store.  The user record that
    [getUserById], [createUser], [authenticateUser], [validateApiKey], the
    key middleware and, for a request without a session, the token
    middleware hand out has no [password] field. *)
Theorem password_never_returned :
  (∀ uid db u, getUserById uid db = Some u → User.password u = None)
  ∧ (∀ uuid salt now username email password db db' u,
       createUser bcrypt_hash uuid salt now username email password db
       = (db', Return u) → User.password u = None)
  ∧ (∀ now email password db db' u,
       authenticateUser bcrypt_compare now email password db = (db', Return u) →
       User.password u = None)
  ∧ (∀ now apiKey db db' v u,
       validateApiKey bcrypt_compare now apiKey db = (db', Validation.Valid v) →
       Validation.user v = Some u → User.password u = None)
  ∧ (∀ now req db db' usr apiKey v u,
       authenticateApiKey bcrypt_compare now req db = (db', Next usr apiKey v) →
       usr = Some u → User.password u = None)
  ∧ (∀ req db u,
       WebRequest.session_user req = None →
       authenticateJWT jwt_verify req db = Proceed (Some u) →
       User.password u = None).
Proof.
  assert (∀ uid db u, getUserById uid db = Some u → User.password u = None)
    as Hget.
  { intros uid db u (j & u0 & _ & ->)%getUserById_Some. done. }
  assert (∀ now apiKey db db' v u,
            validateApiKey bcrypt_compare now apiKey db
            = (db', Validation.Valid v) →
            Validation.user v = Some u → User.password u = None) as Hval.
  { intros now apiKey db db' v u Hv Hu.
    destruct (validateApiKey_Valid _ _ _ _ _ _ Hv) as (i & k & _ & _ & _ & _ & Huser).
    rewrite Huser in Hu. eauto. }
  split_and!; [done| | |done| |].
  - by intros uuid salt now username email password db db' u
      (_ & _ & ->)%createUser_Return.
  - by intros now email password db db' u
      (i & u0 & hash & _ & _ & _ & -> & _)%authenticateUser_Return.
  - intros now req db db' usr apiKey v u
      (Hv & -> & _)%authenticateApiKey_Next Hu. eauto.
  - intros req db u Hsession. unfold authenticateJWT. rewrite Hsession.
    destruct (truthy _) as [authHeader|]; [|by case_match].
    destruct (jwt_verify _) as [[uid|]|]; simpl; [|done..].
    destruct (getUserById uid db) as [user|] eqn:Huser; [|done].
    case_match; [|done]. intros [= <-]. eauto.
Qed.

(** ** What a validation and a recording write *)

(** The usage counts of all key records, added up. *)
Lemma sum_list_insert (l : list nat) i x y :
  l !! i = Some x → sum_list (<[i := y]> l) + x = sum_list l + y.
Proof.
  revert i. induction l as [|z l IH]; intros [|i] Hi; simplify_eq/=; [lia|].
  specialize (IH i Hi). lia.
Qed.


(** X8: [logApiUsage] with a key that no active record accepts still
    writes its log entry, cut at 1000, but counts nothing: the key records
    and the user records are as before. *)
Theorem logApiUsage_unknown_key uuid now validated_at today apiKey endpoint data db :
  (∀ k, k ∈ DB.apiKeys db →
        bcrypt_compare apiKey (ApiKey.key k) = true →
        ApiKey.isActive k = false) →
  logApiUsage bcrypt_compare uuid now validated_at today apiKey endpoint data db
  = (DB.set_logs
       (take 1000 (logEntry uuid now apiKey endpoint data :: DB.logs db)) db,
     logEntry uuid now apiKey endpoint data).
Proof.
  intros Hnone. unfold logApiUsage.
  rewrite validateApiKey_no_active_match by done.
  do 2 f_equal. case_match eqn:Hlt; [done|].
  apply Nat.ltb_ge in Hlt. by rewrite take_ge.
Qed.

(** ** Issuing, listing and revoking keys *)

Lemma list_ascii_of_string_app (s t : string) :
  list_ascii_of_string (s ++ t)
  = (list_ascii_of_string s ++ list_ascii_of_string t)%list.
Proof. induction s as [|c s IH]; [done|]. simpl. by rewrite IH. Qed.

(** [replace(/-/g, '')] keeps every character that is not a dash, in
    order, and nothing else. *)
Lemma strip_dashes_filter s :
  list_ascii_of_string (strip_dashes s)
  = filter (λ c, c ≠ "-"%char) (list_ascii_of_string s).
Proof.
  induction s as [|c s IH]; [done|]. simpl.
  destruct (Ascii.eqb_spec c "-") as [->|Hc].
  - by rewrite filter_cons_False by (by intros []).
  - rewrite filter_cons_True by done. simpl. by rewrite IH.
Qed.

Lemma strip_dashes_app s t :
  strip_dashes (s ++ t) = strip_dashes s ++ strip_dashes t.
Proof.
  induction s as [|c s IH]; [done|]. simpl.
  destruct (Ascii.eqb c "-"); [done|]. simpl. by rewrite IH.
Qed.

Lemma strip_dashes_dash_free s :
  Forall (λ c, c ≠ "-"%char) (list_ascii_of_string s) → strip_dashes s = s.
Proof.
  induction s as [|c s IH]; [done|]. simpl.
  intros [Hc Hs]%Forall_cons.
  destruct (Ascii.eqb_spec c "-") as [->|_]; [done|]. by rewrite IH.
Qed.

Lemma filter_dashes_length (l : list ascii) :
  length (filter (λ c, c ≠ "-"%char) l) + length (filter (λ c, c = "-"%char) l)
  = length l.
Proof.
  induction l as [|c l IH]; [done|]. rewrite !filter_cons.
  destruct (decide (c ≠ "-"%char)) as [Hne|Hnn],
           (decide (c = "-"%char)) as [Heq|Hne']; simpl; try lia; [done|].
  by destruct Hnn.
Qed.

Lemma length_list_ascii_of_string s :
  length (list_ascii_of_string s) = String.length s.
Proof. induction s as [|c s IH]; [done|]. simpl. by rewrite IH. Qed.

(** X9: the key [createApiKey] issues is [shd_] followed by the
    characters of the fresh uuid that are not dashes, in their order.  So
    no character of the key is a dash, the key is as long as the uuid plus
    four less the number of its dashes, and a uuid of five dash-free groups
    [a-b-c-d-e] gives the key [shd_abcde]. *)
Theorem createApiKey_key_format secret_uuid salt uuid now userId name db :
  let apiKey :=
    IssuedKey.apiKey
      (snd (createApiKey bcrypt_hash secret_uuid salt uuid now userId name db)) in
  list_ascii_of_string apiKey
  = (list_ascii_of_string "shd_"
     ++ filter (λ c, c ≠ "-"%char) (list_ascii_of_string secret_uuid))%list
  ∧ Forall (λ c, c ≠ "-"%char) (list_ascii_of_string apiKey)
  ∧ String.length apiKey
    + length (filter (λ c, c = "-"%char) (list_ascii_of_string secret_uuid))
    = 4 + String.length secret_uuid
  ∧ (∀ a b c d e,
       secret_uuid = a ++ "-" ++ b ++ "-" ++ c ++ "-" ++ d ++ "-" ++ e →
       Forall (λ c, c ≠ "-"%char) (list_ascii_of_string (a ++ b ++ c ++ d ++ e)) →
       apiKey = "shd_" ++ a ++ b ++ c ++ d ++ e).
Proof.
  unfold createApiKey. cbn [snd IssuedKey.apiKey]. cbv zeta.
  assert (list_ascii_of_string ("shd_" ++ strip_dashes secret_uuid)
          = (list_ascii_of_string "shd_"
             ++ filter (λ c, c ≠ "-"%char) (list_ascii_of_string secret_uuid))%list)
    as Hchars by by rewrite list_ascii_of_string_app, strip_dashes_filter.
  split_and!.
  - done.
  - rewrite Hchars. apply Forall_app. split.
    + by repeat constructor.
    + apply Forall_forall. by intros c [Hc _]%list_elem_of_filter.
  - rewrite <-length_list_ascii_of_string, Hchars, length_app.
    pose proof (filter_dashes_length (list_ascii_of_string secret_uuid)) as Hlen.
    rewrite length_list_ascii_of_string in Hlen. simpl. lia.
  - intros a b c d e -> Hfree.
    rewrite !list_ascii_of_string_app, !Forall_app in Hfree.
    destruct Hfree as (Ha & Hb & Hc & Hd & He).
    rewrite !strip_dashes_app.
    rewrite (strip_dashes_dash_free a), (strip_dashes_dash_free b),
      (strip_dashes_dash_free c), (strip_dashes_dash_free d),
      (strip_dashes_dash_free e) by done.
    reflexivity.
Qed.

(** X10: a key that was just issued validates.  When [bcrypt.compare]
    accepts the new key against its own hash and no older active record
    accepts it, validating the key [createApiKey] returned resolves to the
    user the key was issued to and to the id of the new record. *)
Theorem issue_then_validate secret_uuid salt uuid now userId name db now' :
  let issued := createApiKey bcrypt_hash secret_uuid salt uuid now userId name db in
  bcrypt_compare (IssuedKey.apiKey (snd issued))
    (bcrypt_hash salt (IssuedKey.apiKey (snd issued))) = true →
  (∀ k, k ∈ DB.apiKeys db →
        bcrypt_compare (IssuedKey.apiKey (snd issued)) (ApiKey.key k) = true →
        ApiKey.isActive k = false) →
  ∃ db2 v,
    validateApiKey bcrypt_compare now' (IssuedKey.apiKey (snd issued))
      (fst issued) = (db2, Validation.Valid v)
    ∧ Validation.userId v = userId
    ∧ Validation.keyId v = IssuedKey.id (snd issued)
    ∧ Validation.user v = getUserById userId db.
Proof.
  intros issued Hcmp Hfresh. subst issued. unfold createApiKey in *.
  simpl in *. unfold validateApiKey. simpl.
  rewrite list_find_app_r.
  2:{ apply list_find_None, Forall_forall. intros k Hk [Hc Ha].
      specialize (Hfresh k Hk Hc). congruence. }
  simpl. rewrite decide_True by done. simpl.
  eexists _, _. split; [reflexivity|]. done.
Qed.

(** X11: after [createApiKey] the owner's listing is the old listing
    followed by the new key, unused so far; every other user's listing is
    unchanged. *)
Theorem createApiKey_listed secret_uuid salt uuid now userId name db uid :
  getApiKeysByUser uid
    (fst (createApiKey bcrypt_hash secret_uuid salt uuid now userId name db))
  = (getApiKeysByUser uid db
     ++ (if decide (userId = uid)
         then [KeyInfo.mk uuid (default "Default Key" name) now None 0]
         else []))%list.
Proof.
  unfold createApiKey, getApiKeysByUser. simpl.
  rewrite filter_app, fmap_app. f_equal.
  rewrite filter_cons, filter_nil. simpl.
  destruct (decide (userId = uid)) as [Hu|Hu].
  - by rewrite decide_True.
  - rewrite decide_False; [done|]. by intros [? _].
Qed.

Lemma getApiKeysByUser_app uid l1 l2 db :
  getApiKeysByUser uid (DB.set_apiKeys (l1 ++ l2) db)
  = (getApiKeysByUser uid (DB.set_apiKeys l1 db)
     ++ getApiKeysByUser uid (DB.set_apiKeys l2 db))%list.
Proof. unfold getApiKeysByUser. simpl. by rewrite filter_app, fmap_app. Qed.

Lemma getApiKeysByUser_other_ids uid keyId keys db :
  Forall (λ k, ApiKey.id k ≠ keyId) keys →
  filter (λ i, KeyInfo.id i ≠ keyId)
         (getApiKeysByUser uid (DB.set_apiKeys keys db))
  = getApiKeysByUser uid (DB.set_apiKeys keys db).
Proof.
  unfold getApiKeysByUser. simpl.
  induction 1 as [|k keys Hk _ IH]; [done|].
  rewrite filter_cons. case_decide; [|done].
  rewrite fmap_cons, filter_cons_True by done. by rewrite IH.
Qed.

Lemma getApiKeysByUser_revoked uid keyId now k l1 l2 db :
  ApiKey.id k = keyId →
  Forall (λ k, ApiKey.id k ≠ keyId) l1 →
  Forall (λ k, ApiKey.id k ≠ keyId) l2 →
  getApiKeysByUser uid (DB.set_apiKeys (l1 ++ [ApiKey.revoke now k] ++ l2) db)
  = filter (λ i, KeyInfo.id i ≠ keyId)
           (getApiKeysByUser uid (DB.set_apiKeys (l1 ++ [k] ++ l2) db)).
Proof.
  intros Hid H1 H2. rewrite !getApiKeysByUser_app, !filter_app.
  rewrite (getApiKeysByUser_other_ids uid keyId l1 db H1).
  rewrite (getApiKeysByUser_other_ids uid keyId l2 db H2).
  f_equal. f_equal.
  unfold getApiKeysByUser. simpl. rewrite !filter_cons, !filter_nil. simpl.
  rewrite decide_False by (intros []; done).
  case_decide; [|done]. simpl. rewrite filter_cons, filter_nil. simpl.
  by rewrite decide_False by (intros Hne; by apply Hne).
Qed.

(** X12: once a key is revoked it is gone from every listing and nothing
    else is: with unique record ids, each user's listing after a successful
    [revokeApiKey] is the listing before without the entry of that id. *)
Theorem revoke_then_unlisted now keyId userId db db' b uid :
  NoDup (ApiKey.id <$> DB.apiKeys db) →
  revokeApiKey now keyId userId db = (db', Return b) →
  getApiKeysByUser uid db'
  = filter (λ i, KeyInfo.id i ≠ keyId) (getApiKeysByUser uid db).
Proof.
  intros Hids (i & k & Hfind & -> & _)%revokeApiKey_Return.
  apply list_find_Some in Hfind as (Hi & [Hid _] & _).
  assert (i < length (DB.apiKeys db)) as Hlt by eauto using lookup_lt_Some.
  assert (∀ j k', j ≠ i → DB.apiKeys db !! j = Some k' → ApiKey.id k' ≠ keyId)
    as Hother.
  { intros j k' Hji Hj Hid'. destruct Hji.
    eapply NoDup_lookup; [exact Hids|..].
    - by rewrite list_lookup_fmap, Hj.
    - rewrite list_lookup_fmap, Hi. simpl. congruence. }
  assert (Forall (λ k, ApiKey.id k ≠ keyId) (take i (DB.apiKeys db))) as H1.
  { apply Forall_lookup. intros j k' Hj.
    apply lookup_take_Some in Hj as [Hj ?]. apply (Hother j); [lia|done]. }
  assert (Forall (λ k, ApiKey.id k ≠ keyId) (drop (S i) (DB.apiKeys db))) as H2.
  { apply Forall_lookup. intros j k' Hj.
    rewrite lookup_drop in Hj. apply (Hother (S i + j)); [lia|done]. }
  rewrite insert_take_drop by done.
  change (getApiKeysByUser uid db)
    with (getApiKeysByUser uid (DB.set_apiKeys (DB.apiKeys db) db)).
  pose proof (getApiKeysByUser_revoked uid keyId now k _ _ db Hid H1 H2) as Hrev.
  simpl in Hrev. rewrite Hrev. by rewrite take_drop_middle.
Qed.

(** ** Download history *)

(** X13: [logDownload] puts the new entry first and keeps the 500 latest;
    the entry it returns is the first one [getUserDownloads] then gives for
    that user, whatever positive limit is asked for. *)
Theorem logDownload_newest_first uuid now userId platform url result downloads :
  let entry := Download.mk uuid userId platform url result now in
  logDownload uuid now userId platform url result downloads
  = (take 500 (entry :: downloads), entry)
  ∧ length (fst (logDownload uuid now userId platform url result downloads))
    ≤ 500
  ∧ ∀ limit,
      limit ≠ Some 0 →
      head (getUserDownloads userId limit
              (fst (logDownload uuid now userId platform url result downloads)))
      = Some entry.
Proof.
  intros entry.
  assert (logDownload uuid now userId platform url result downloads
          = (take 500 (entry :: downloads), entry)) as ->.
  { unfold logDownload. fold entry. f_equal. case_match eqn:Hlt; [done|].
    apply Nat.ltb_ge in Hlt. by rewrite take_ge. }
  cbn [fst]. split_and!; [done|rewrite length_take; lia|].
  intros limit Hlimit. unfold getUserDownloads.
  change (take 500 (entry :: downloads)) with (entry :: take 499 downloads).
  rewrite filter_cons_True by done.
  destruct limit as [[|n]|]; [done|done..].
Qed.

(** X14: [getUserDownloads] returns at most [limit] entries (50 when no
    limit is given), all of them of the user asked for, in the order of the
    file: it is the first [limit] of that user's entries. *)
Theorem getUserDownloads_bounded userId limit downloads :
  length (getUserDownloads userId limit downloads) ≤ default 50 limit
  ∧ Forall (λ d, Download.userId d = userId)
           (getUserDownloads userId limit downloads)
  ∧ getUserDownloads userId limit downloads `sublist_of` downloads
  ∧ (length (filter (λ d, Download.userId d = userId) downloads)
     ≤ default 50 limit →
     getUserDownloads userId limit downloads
     = filter (λ d, Download.userId d = userId) downloads).
Proof.
  unfold getUserDownloads. split_and!.
  - rewrite length_take. lia.
  - apply Forall_take, Forall_forall. by intros d [? _]%list_elem_of_filter.
  - etrans; [apply sublist_take|apply sublist_filter].
  - intros Hle. by apply take_ge.
Qed.

(** ** Short URLs *)

(** X15: the lookup by short code returns the first record created with
    that code.  After [createShortUrl] a code that was already taken still
    resolves to the older record; a code that was free resolves to the new
    record exactly when it is the new record's code. *)
Theorem createShortUrl_lookup d urls code :
  getShortUrlBySlug code (fst (createShortUrl d urls))
  = match getShortUrlBySlug code urls with
    | Some old => Some old
    | None => if decide (ShortUrl.shortCode d = code) then Some d else None
    end.
Proof.
  unfold getShortUrlBySlug, createShortUrl. simpl.
  destruct (list_find _ urls) as [[i old]|] eqn:Hfind; simpl.
  - by rewrite (list_find_app_l _ _ _ _ _ Hfind).
  - rewrite list_find_app_r by done. simpl. by case_decide.
Qed.

(** X16: a click on a short code changes one record, the one the lookup
    returns for that code: its click count grows by 1, its [lastAccessed]
    becomes the time of the click, and its other fields stay.  Every other
    record, also a later one with the same code, stays as it is and where
    it is, so the clicks of all records together grow by exactly 1 and the
    lookup of every other code is unchanged.  A click on an unknown code
    changes nothing. *)
Theorem incrementShortUrlClick_counts now code urls :
  (∀ u, getShortUrlBySlug code urls = Some u →
     ∃ i u',
       urls !! i = Some u
       ∧ incrementShortUrlClick now code urls !! i = Some u'
       ∧ (∀ j, j ≠ i → incrementShortUrlClick now code urls !! j = urls !! j)
       ∧ getShortUrlBySlug code (incrementShortUrlClick now code urls) = Some u'
       ∧ ShortUrl.clickCount u' = ShortUrl.clickCount u + 1
       ∧ ShortUrl.lastAccessed u' = Some now
       ∧ ShortUrl.id u' = ShortUrl.id u
       ∧ ShortUrl.shortCode u' = ShortUrl.shortCode u
       ∧ ShortUrl.originalUrl u' = ShortUrl.originalUrl u
       ∧ ShortUrl.shortUrl u' = ShortUrl.shortUrl u
       ∧ ShortUrl.createdAt u' = ShortUrl.createdAt u
       ∧ ShortUrl.expiresAt u' = ShortUrl.expiresAt u
       ∧ ShortUrl.password u' = ShortUrl.password u
       ∧ ShortUrl.createdBy u' = ShortUrl.createdBy u
       ∧ ShortUrl.isActive u' = ShortUrl.isActive u
       ∧ sum_list (ShortUrl.clickCount <$> incrementShortUrlClick now code urls)
         = sum_list (ShortUrl.clickCount <$> urls) + 1)
  ∧ (∀ other, other ≠ code →
       getShortUrlBySlug other (incrementShortUrlClick now code urls)
       = getShortUrlBySlug other urls)
  ∧ length (incrementShortUrlClick now code urls) = length urls
  ∧ (getShortUrlBySlug code urls = None →
     incrementShortUrlClick now code urls = urls).
Proof.
  unfold getShortUrlBySlug, incrementShortUrlClick.
  destruct (list_find (λ url, ShortUrl.shortCode url = code) urls)
    as [[i u]|] eqn:Hfind; simpl; [|rewrite Hfind; by split_and!].
  pose proof Hfind as (Hi & Hcode & _)%list_find_Some.
  split_and!.
  - intros ? [= <-]. exists i, (ShortUrl.click now u).
    split_and!; try done.
    + apply list_lookup_insert_eq. eauto using lookup_lt_Some.
    + intros j Hne. by apply list_lookup_insert_ne.
    + by rewrite (list_find_insert_same _ _ _ _ (ShortUrl.click now u) Hfind).
    + rewrite list_fmap_insert. simpl.
      pose proof (sum_list_insert (ShortUrl.clickCount <$> urls) i
                    (ShortUrl.clickCount u) (ShortUrl.clickCount u + 1)) as Hsum.
      rewrite list_lookup_fmap, Hi in Hsum. specialize (Hsum eq_refl). lia.
  - intros other Hother.
    destruct (list_find (λ url, ShortUrl.shortCode url = other) urls)
      as [[j v]|] eqn:Hfind'.
    + rewrite (list_find_insert_stable
                 (λ url, ShortUrl.shortCode url = other) urls i u
                 (ShortUrl.click now u) j v Hi (iff_refl _) Hfind'). simpl.
      rewrite decide_False; [done|]. intros ->.
      apply list_find_Some in Hfind' as (Hj & Hcode' & _). congruence.
    + by rewrite (list_find_insert_stable_None
                    (λ url, ShortUrl.shortCode url = other) urls i u
                    (ShortUrl.click now u) Hi (iff_refl _) Hfind').
  - apply length_insert.
  - done.
Qed.

(** ** What any sequence of calls keeps *)

(** How one call can change the users file: not at all, by one appended
    account that clashes with none, or by one record rewritten in place. *)
Lemma perform_users a db :
  DB.users (perform bcrypt_hash bcrypt_compare a db) = DB.users db
  ∨ (∃ new,
       DB.users (perform bcrypt_hash bcrypt_compare a db)
       = (DB.users db ++ [new])%list
       ∧ plain_user new
       ∧ Forall (λ u, User.email u ≠ User.email new
                      ∧ User.username u ≠ User.username new) (DB.users db))
  ∨ (∃ i u u',
       DB.users db !! i = Some u
       ∧ DB.users (perform bcrypt_hash bcrypt_compare a db)
         = <[i := u']> (DB.users db)
       ∧ same_account u u').
Proof.
  assert (∀ now apiKey db0,
            DB.users (fst (validateApiKey bcrypt_compare now apiKey db0))
            = DB.users db0) as Hval by apply validateApiKey_users.
  destruct a as [[uuid salt now username email password
                 |secret_uuid salt uuid now userId name
                 |now apiKey|now keyId userId|now req|c]
                |now email password]; simpl.
  - unfold createUser.
    destruct (list_find _ _) as [[i v]|] eqn:Hfind; [by left|].
    right; left. eexists. split; [reflexivity|]. split.
    + by repeat split; eauto.
    + rewrite list_find_None in Hfind.
      eapply Forall_impl; [exact Hfind|].
      intros x Hx. split; intros Hclash; apply Hx; [by left|by right].
  - by left.
  - left. apply Hval.
  - left. unfold revokeApiKey. by destruct (list_find _ _) as [[i k]|].
  - left. apply authenticateApiKey_users.
  - unfold record, logApiUsage.
    match goal with
    | |- context [validateApiKey _ ?t ?k ?d] =>
        pose proof (Hval t k d) as Hv;
        destruct (validateApiKey bcrypt_compare t k d) as [db1 [v|]]
    end; simpl in *; [|by left].
    rewrite updateUserUsage_users, Hv. simpl.
    destruct (list_find _ _) as [[j u]|] eqn:Hfind; [|by left].
    apply list_find_Some in Hfind as (Hj & _ & _).
    right; right. exists j, u, (bumpUsage (LogCall.today c) u).
    split_and!; [done..|].
    unfold same_account, bumpUsage. by case_decide.
  - unfold authenticateUser.
    destruct (list_find _ _) as [[i u]|] eqn:Hfind; [|by left].
    destruct (User.password u) as [hash|]; [|by left].
    destruct (bcrypt_compare password hash); [|by left].
    apply list_find_Some in Hfind as (Hi & _ & _).
    right; right. exists i, u, (set_lastLogin now u). by split_and!.
Qed.

(** The same for the keys file: nothing, one appended active key, or one
    record rewritten in place by a validation or a revocation. *)
Lemma perform_apiKeys a db :
  DB.apiKeys (perform bcrypt_hash bcrypt_compare a db) = DB.apiKeys db
  ∨ (∃ new,
       DB.apiKeys (perform bcrypt_hash bcrypt_compare a db)
       = (DB.apiKeys db ++ [new])%list)
  ∨ (∃ i k k',
       DB.apiKeys db !! i = Some k
       ∧ DB.apiKeys (perform bcrypt_hash bcrypt_compare a db)
         = <[i := k']> (DB.apiKeys db)
       ∧ same_key k k').
Proof.
  assert (∀ now apiKey db0,
            DB.apiKeys (fst (validateApiKey bcrypt_compare now apiKey db0))
            = DB.apiKeys db0
            ∨ ∃ i k,
                DB.apiKeys db0 !! i = Some k
                ∧ DB.apiKeys (fst (validateApiKey bcrypt_compare now apiKey db0))
                  = <[i := ApiKey.touch now k]> (DB.apiKeys db0)) as Hval.
  { intros now apiKey db0. unfold validateApiKey.
    destruct (list_find _ _) as [[i k]|] eqn:Hfind; [|by left].
    apply list_find_Some in Hfind as (Hi & _ & _). right. by exists i, k. }
  assert (∀ now apiKey db0,
            DB.apiKeys (fst (validateApiKey bcrypt_compare now apiKey db0))
            = DB.apiKeys db0
            ∨ ∃ i k k',
                DB.apiKeys db0 !! i = Some k
                ∧ DB.apiKeys (fst (validateApiKey bcrypt_compare now apiKey db0))
                  = <[i := k']> (DB.apiKeys db0)
                ∧ same_key k k') as Hval'.
  { intros now apiKey db0.
    destruct (Hval now apiKey db0) as [?|(i & k & Hi & Hk)]; [by left|].
    right. exists i, k, (ApiKey.touch now k). by split_and!. }
  destruct a as [[uuid salt now username email password
                 |secret_uuid salt uuid now userId name
                 |now apiKey|now keyId userId|now req|c]
                |now email password]; simpl.
  - left. unfold createUser. by destruct (list_find _ _).
  - right; left. by eexists.
  - destruct (Hval' now apiKey db) as [?|?]; [by left|by right; right].
  - unfold revokeApiKey.
    destruct (list_find _ _) as [[i k]|] eqn:Hfind; [|by left].
    apply list_find_Some in Hfind as (Hi & _ & _).
    right; right. exists i, k, (ApiKey.revoke now k). by split_and!.
  - unfold authenticateApiKey.
    destruct (extractApiKey req) as [presented|]; [|by left].
    destruct (truthy presented) as [apiKey|]; [|by left].
    pose proof (Hval' now apiKey db) as Hv.
    destruct (validateApiKey _ _ _ _) as [db1 [v|]]; simpl in Hv.
    + destruct (Validation.user v) as [u|]; [case_match|];
        (destruct Hv as [?|?]; [by left|by right; right]).
    + destruct Hv as [?|?]; [by left|by right; right].
  - unfold record, logApiUsage.
    match goal with
    | |- context [validateApiKey _ ?t ?k ?d] =>
        pose proof (Hval' t k d) as Hv;
        destruct (validateApiKey bcrypt_compare t k d) as [db1 [v|]]
    end; simpl in *; rewrite ?updateUserUsage_apiKeys;
      (destruct Hv as [?|?]; [by left|by right; right]).
  - left. unfold authenticateUser.
    destruct (list_find _ _) as [[i u]|]; [|done].
    destruct (User.password u) as [hash|]; [|done].
    by destruct (bcrypt_compare password hash).
Qed.

(** And for the log: nothing, or one entry put first and the cut at 1000. *)
Lemma perform_logs a db :
  DB.logs (perform bcrypt_hash bcrypt_compare a db) = DB.logs db
  ∨ ∃ entry,
      DB.logs (perform bcrypt_hash bcrypt_compare a db)
      = take 1000 (entry :: DB.logs db).
Proof.
  destruct a as [[uuid salt now username email password
                 |secret_uuid salt uuid now userId name
                 |now apiKey|now keyId userId|now req|c]
                |now email password]; simpl.
  - left. unfold createUser. by destruct (list_find _ _).
  - by left.
  - left. apply validateApiKey_logs.
  - left. unfold revokeApiKey. by destruct (list_find _ _) as [[i k]|].
  - left. unfold authenticateApiKey.
    destruct (extractApiKey req) as [presented|]; [|done].
    destruct (truthy presented) as [apiKey|]; [|done].
    pose proof (validateApiKey_logs bcrypt_compare now apiKey db) as Hv.
    destruct (validateApiKey _ _ _ _) as [db1 [v|]]; [|done].
    destruct (Validation.user v) as [u|]; [|done]. by case_match.
  - right. eexists. apply record_logs.
  - left. unfold authenticateUser.
    destruct (list_find _ _) as [[i u]|]; [|done].
    destruct (User.password u) as [hash|]; [|done].
    by destruct (bcrypt_compare password hash).
Qed.

Lemma perform_all_cons a acts db :
  perform_all bcrypt_hash bcrypt_compare (a :: acts) db
  = perform_all bcrypt_hash bcrypt_compare acts
      (perform bcrypt_hash bcrypt_compare a db).
Proof. done. Qed.

Lemma same_account_trans u1 u2 u3 :
  same_account u1 u2 → same_account u2 u3 → same_account u1 u3.
Proof.
  intros (?&?&?&?&?&?&?&?) (?&?&?&?&?&?&?&?).
  unfold same_account. split_and!; congruence.
Qed.

Lemma same_key_trans k1 k2 k3 : same_key k1 k2 → same_key k2 k3 → same_key k1 k3.
Proof.
  intros (?&?&?&?&?&?&?) (?&?&?&?&?&?&?).
  unfold same_key. split_and!; [congruence..|auto].
Qed.

(** X17: a user record is for ever.  Whatever calls are made (registration,
    login, issuing, validating and revoking keys, the key middleware,
    logging), a stored account stays at its position with the same id,
    username, email, password hash, role, creation time, active flag and
    daily limit: the store offers no way to delete or deactivate an
    account, change its password or raise its limit. *)
Theorem user_record_persists acts db i u :
  DB.users db !! i = Some u →
  ∃ u',
    DB.users (perform_all bcrypt_hash bcrypt_compare acts db) !! i = Some u'
    ∧ same_account u u'.
Proof.
  revert db u. induction acts as [|a acts IH]; intros db u Hi.
  { exists u. split; [done|]. by repeat split. }
  rewrite perform_all_cons.
  destruct (perform_users a db)
    as [Heq|[(new & Heq & _)|(j & v & v' & Hj & Heq & Hsame)]].
  - apply IH. by rewrite Heq.
  - apply IH. rewrite Heq. by apply lookup_app_l_Some.
  - destruct (decide (i = j)) as [->|Hij].
    + assert (v = u) as -> by congruence.
      destruct (IH (perform bcrypt_hash bcrypt_compare a db) v') as (u' & Hu' & Hs).
      { rewrite Heq. apply list_lookup_insert_eq. eauto using lookup_lt_Some. }
      exists u'. split; [done|]. by eapply same_account_trans.
    + apply IH. rewrite Heq. by rewrite list_lookup_insert_ne.
Qed.

(** X18: a key record is for ever.  Under any calls a stored key stays at
    its position with the same id, owner, name, hash, creation time and
    stored plaintext, and once it is inactive it stays inactive: the store
    offers no way to delete a key or to reactivate a revoked one. *)
Theorem key_record_persists acts db i k :
  DB.apiKeys db !! i = Some k →
  ∃ k',
    DB.apiKeys (perform_all bcrypt_hash bcrypt_compare acts db) !! i = Some k'
    ∧ same_key k k'.
Proof.
  revert db k. induction acts as [|a acts IH]; intros db k Hi.
  { exists k. split; [done|]. by repeat split. }
  rewrite perform_all_cons.
  destruct (perform_apiKeys a db)
    as [Heq|[(new & Heq)|(j & v & v' & Hj & Heq & Hsame)]].
  - apply IH. by rewrite Heq.
  - apply IH. rewrite Heq. by apply lookup_app_l_Some.
  - destruct (decide (i = j)) as [->|Hij].
    + assert (v = k) as -> by congruence.
      destruct (IH (perform bcrypt_hash bcrypt_compare a db) v') as (k' & Hk' & Hs).
      { rewrite Heq. apply list_lookup_insert_eq. eauto using lookup_lt_Some. }
      exists k'. split; [done|]. by eapply same_key_trans.
    + apply IH. rewrite Heq. by rewrite list_lookup_insert_ne.
Qed.

Lemma fmap_insert_same {A B} (f : A → B) (l : list A) i x x' :
  l !! i = Some x → f x' = f x → f <$> <[i := x']> l = f <$> l.
Proof.
  intros Hi Hf. rewrite list_fmap_insert, Hf.
  apply list_insert_id. by rewrite list_lookup_fmap, Hi.
Qed.

(** X19: usernames and emails stay unique.  When no two stored accounts
    share a username and no two share an email, this is still so after any
    calls; in particular it holds in every store reached from the empty
    files. *)
Theorem accounts_stay_unique acts db :
  NoDup (User.username <$> DB.users db) →
  NoDup (User.email <$> DB.users db) →
  NoDup (User.username
         <$> DB.users (perform_all bcrypt_hash bcrypt_compare acts db))
  ∧ NoDup (User.email
           <$> DB.users (perform_all bcrypt_hash bcrypt_compare acts db)).
Proof.
  revert db. induction acts as [|a acts IH]; intros db Hn He; [done|].
  rewrite perform_all_cons.
  destruct (perform_users a db)
    as [Heq|[(new & Heq & _ & Hfresh)|(j & v & v' & Hj & Heq & Hsame)]];
    apply IH; rewrite Heq; try done.
  - rewrite fmap_app. apply NoDup_app. split_and!; [done| |apply NoDup_singleton].
    intros n (u & -> & Hu)%list_elem_of_fmap Hnew%list_elem_of_singleton.
    rewrite Forall_forall in Hfresh. by destruct (Hfresh u Hu).
  - rewrite fmap_app. apply NoDup_app. split_and!; [done| |apply NoDup_singleton].
    intros n (u & -> & Hu)%list_elem_of_fmap Hnew%list_elem_of_singleton.
    rewrite Forall_forall in Hfresh. by destruct (Hfresh u Hu).
  - rewrite (fmap_insert_same User.username _ _ _ _ Hj); [done|].
    by destruct Hsame as (?&?&?&_).
  - rewrite (fmap_insert_same User.email _ _ _ _ Hj); [done|].
    by destruct Hsame as (?&?&?&_).
Qed.

Lemma perform_all_plain acts : ∀ db,
  Forall plain_user (DB.users db) →
  Forall plain_user (DB.users (perform_all bcrypt_hash bcrypt_compare acts db)).
Proof.
  induction acts as [|a acts IH]; intros db Hall; [done|].
  rewrite perform_all_cons. apply IH.
  destruct (perform_users a db)
    as [Heq|[(new & Heq & Hnew & _)|(j & v & v' & Hj & Heq & Hsame)]];
    rewrite Heq; [done| |].
  - apply Forall_app. split; [done|]. by apply Forall_singleton.
  - apply Forall_insert; [done|].
    pose proof (Forall_lookup_1 _ _ _ _ Hall Hj) as (? & ? & ? & ?).
    destruct Hsame as (_ & _ & _ & Hpw & Hrole & _ & Hact & Hlim).
    unfold plain_user. by rewrite Hpw, Hrole, Hact, Hlim.
Qed.

(** X20: every account the calls create is a plain one.  In a store
    reached from the empty files every user has role [user], is active,
    has the daily limit 1000 and carries a password hash. *)
Theorem reachable_users_plain acts :
  Forall plain_user
    (DB.users (perform_all bcrypt_hash bcrypt_compare acts DB.empty)).
Proof. apply perform_all_plain. constructor. Qed.

(** X21: the log never holds more than 1000 entries.  A log within the
    cap stays within it under any calls, so every store reached from the
    empty files has at most 1000 log entries. *)
Theorem log_stays_capped acts db :
  length (DB.logs db) ≤ 1000 →
  length (DB.logs (perform_all bcrypt_hash bcrypt_compare acts db)) ≤ 1000.
Proof.
  revert db. induction acts as [|a acts IH]; intros db Hle; [done|].
  rewrite perform_all_cons. apply IH.
  destruct (perform_logs a db) as [->|[entry ->]]; [done|].
  rewrite length_take. lia.
Qed.

(** ** Handled requests and the quota *)

(** What [next()] tells about the key the middleware read. *)
Lemma authenticateApiKey_Next_key now req db db1 usr apiKey v :
  authenticateApiKey bcrypt_compare now req db = (db1, Next usr apiKey v) →
  extractApiKey req = Return (Some apiKey).
Proof.
  unfold authenticateApiKey.
  destruct (extractApiKey req) as [presented|]; [|done].
  destruct (truthy presented) as [apiKey'|] eqn:Hkey; [|done].
  apply truthy_Some in Hkey as [-> _].
  destruct (validateApiKey _ _ _ _) as [db1' [v'|]]; [|done].
  destruct (Validation.user v') as [u|]; [case_match; [done|]|];
    by intros [= _ _ <- _].
Qed.

(** A user the middleware let through is below the limit, so recording
    the request for that user leaves the counter within it. *)
Lemma handle_within_limits h c db :
  logs_admitted_key h (Served.req c) →
  within_limits db →
  within_limits (fst (handle bcrypt_compare h c db)).
Proof.
  intros Hkey Hall. unfold handle.
  pose proof (authenticateApiKey_users bcrypt_compare (Served.arrived c)
                (Served.req c) db) as Husers.
  destruct (authenticateApiKey _ _ _ _) as [db1 [usr admitted v|status error]]
    eqn:Hauth; simpl in Husers;
    [|unfold within_limits; cbn [fst]; by rewrite Husers].
  destruct (handler_apiKey h (Served.req c)) as [apiKey|] eqn:Hlogged;
    [|unfold within_limits; cbn [fst]; by rewrite Husers].
  pose proof (authenticateApiKey_Next_key _ _ _ _ _ _ _ Hauth) as Hread.
  rewrite (Hkey apiKey Hlogged) in Hread. injection Hread as ->.
  destruct (admitted_then_logged _ _ _ _ _ _ _ _ (Served.uuid c) (Served.now c)
              (Served.validated_at c) (Served.today c) (Served.endpoint c)
              (Served.data c) Hauth) as (i & k & _ & _ & _ & _ & Hbilled).
  unfold within_limits. cbn [fst]. rewrite Hbilled, updateUserUsage_users.
  destruct (list_find _ _) as [[j u]|] eqn:Hfind; [|done].
  apply Forall_insert; [done|].
  apply authenticateApiKey_Next in Hauth as (Hv & _ & Hlt).
  destruct (validateApiKey_Valid _ _ _ _ _ _ Hv)
    as (i' & k' & _ & _ & Hu & _ & Huser).
  rewrite <-Hu, (getUserById_found _ _ _ _ Hfind) in Huser.
  specialize (Hlt _ Huser). simpl in Hlt.
  rewrite bumpUsage_usageToday, bumpUsage_apiLimit.
  pose proof (used_on_le (Served.today c) u). lia.
Qed.

(** X22: requests handled one after the other never push a counter past
    its limit, as long as each handler logs the key the middleware read.
    When every user's [usageToday] is within the user's [apiLimit], this
    is still so after any sequence of requests, each through the
    middleware and a handler behind it and recorded before the next one
    arrives, in which the key a handler passes to [logApiUsage] is the key
    the middleware read from the request. *)
Theorem served_requests_within_limit cs db :
  Forall (λ hc, logs_admitted_key hc.1 (Served.req hc.2)) cs →
  within_limits db →
  within_limits (handle_all bcrypt_compare cs db).
Proof.
  revert db. induction cs as [|[h c] cs IH]; intros db Hkeys Hall; [done|].
  apply Forall_cons in Hkeys as [Hkey Hkeys].
  apply (IH _ Hkeys). by apply handle_within_limits.
Qed.

(** X26: a handler bills the owner of the key it reads, whom the
    middleware need not have checked.  When the middleware admits a
    request, on whatever key it read, and the key the handler passes to
    [logApiUsage] is accepted by an active record of user [u], then [u]'s
    counter becomes [u]'s count of the day plus 1, whatever [u]'s limit,
    and no other user record changes; if [u] was at the limit that day,
    the counter is now past it. *)
Theorem handler_bills_logged_key h c db usr admitted v apiKey i k j u :
  snd (authenticateApiKey bcrypt_compare (Served.arrived c) (Served.req c) db)
  = Next usr admitted v →
  handler_apiKey h (Served.req c) = Some apiKey →
  list_find (λ k, bcrypt_compare apiKey (ApiKey.key k) = true
                  ∧ ApiKey.isActive k = true) (DB.apiKeys db) = Some (i, k) →
  list_find (λ u, User.id u = ApiKey.userId k) (DB.users db) = Some (j, u) →
  ∃ u',
    DB.users (fst (handle bcrypt_compare h c db)) !! j = Some u'
    ∧ User.usageToday u' = used_on (Served.today c) u + 1
    ∧ User.apiLimit u' = User.apiLimit u
    ∧ User.id u' = User.id u
    ∧ (∀ j', j' ≠ j →
         DB.users (fst (handle bcrypt_compare h c db)) !! j' = DB.users db !! j')
    ∧ (User.lastResetDate u = Some (Served.today c) →
       User.usageToday u = User.apiLimit u →
       User.apiLimit u' < User.usageToday u').
Proof.
  intros Hnext Hlogged Hkey Huser. unfold handle.
  destruct (authenticateApiKey _ _ _ _) as [db1 r] eqn:Hauth.
  simpl in Hnext. subst r. rewrite Hlogged. cbn [fst].
  apply authenticateApiKey_Next in Hauth as (Hv & _ & _).
  destruct (validateApiKey_Valid _ _ _ _ _ _ Hv)
    as (i0 & k0 & Hfind0 & -> & _).
  apply list_find_Some in Hfind0 as (Hi0 & _ & _).
  pose proof (list_find_insert_stable
                (λ k, bcrypt_compare apiKey (ApiKey.key k) = true
                      ∧ ApiKey.isActive k = true)
                (DB.apiKeys db) i0 k0 (ApiKey.touch (Served.arrived c) k0) i k
                Hi0 (iff_refl _) Hkey) as Hkey1.
  destruct (logApiUsage_valid bcrypt_compare (Served.uuid c) (Served.now c)
              (Served.validated_at c) (Served.today c) apiKey
              (Served.endpoint c) (Served.data c)
              (DB.set_apiKeys
                 (<[i0 := ApiKey.touch (Served.arrived c) k0]> (DB.apiKeys db)) db)
              i _ Hkey1) as [_ Hbilled].
  assert (ApiKey.userId (if decide (i = i0)
                         then ApiKey.touch (Served.arrived c) k0 else k)
          = ApiKey.userId k) as Howner.
  { case_decide as Heq; [|done]. subst i0.
    apply list_find_Some in Hkey as (Hi & _ & _). simpl. congruence. }
  rewrite Hbilled, Howner, updateUserUsage_users. simpl. rewrite Huser.
  apply list_find_Some in Huser as (Hj & _ & _).
  exists (bumpUsage (Served.today c) u).
  split_and!.
  - apply list_lookup_insert_eq. eauto using lookup_lt_Some.
  - apply bumpUsage_usageToday.
  - apply bumpUsage_apiLimit.
  - apply bumpUsage_id.
  - intros j' Hne. by apply list_lookup_insert_ne.
  - intros Hday Hfull.
    rewrite bumpUsage_usageToday, bumpUsage_apiLimit.
    unfold used_on. rewrite decide_True by done. lia.
Qed.

(** ** Tokens and the admin gate *)

Lemma split_spaces_bearer token :
  split_spaces token = [token] →
  split_spaces ("Bearer " ++ token) !! 1 = Some token.
Proof.
  intros Hone.
  change ("Bearer " ++ token)
    with (String "B" (String "e" (String "a" (String "r" (String "e"
            (String "r" (String " " token))))))).
  cbn [split_spaces Ascii.eqb Bool.eqb]. by rewrite Hone.
Qed.

(** X23: a token from [generateToken] authenticates its user.  When
    [jwt.verify] accepts the token with the user id it was signed for and
    the token contains no space, a request without a session that sends
    [Bearer <token>] proceeds as the stored user, without the password
    hash, if the account is active, and is answered 403 if it is not. *)
Theorem generateToken_then_authenticateJWT uid db j u accepts_html :
  jwt_verify (Some (generateToken jwt_sign uid)) = Some (Some uid) →
  split_spaces (generateToken jwt_sign uid) = [generateToken jwt_sign uid] →
  list_find (λ u, User.id u = uid) (DB.users db) = Some (j, u) →
  authenticateJWT jwt_verify
    (WebRequest.mk None (Some ("Bearer " ++ generateToken jwt_sign uid))
       accepts_html) db
  = if User.isActive u then Proceed (Some (User.without_password u))
    else Reject 403 "User not found or inactive".
Proof.
  intros Hverify Hone Hfind. unfold authenticateJWT.
  cbn [WebRequest.session_user WebRequest.authorization].
  assert (truthy (Some ("Bearer " ++ generateToken jwt_sign uid))
          = Some ("Bearer " ++ generateToken jwt_sign uid)) as ->.
  { unfold truthy. by rewrite decide_False. }
  rewrite (split_spaces_bearer _ Hone), Hverify. cbn [mbind option_bind].
  by rewrite (getUserById_found _ _ _ _ Hfind).
Qed.

(** X24: no token opens the admin area.  In a store reached from the empty
    files, a request without a session that the token middleware lets
    proceed is never let through by [requireAdmin]: it is redirected to
    the dashboard or answered 403, because every account the calls create
    has role [user]. *)
Theorem token_never_admin acts req usr accepts_html :
  WebRequest.session_user req = None →
  authenticateJWT jwt_verify req
    (perform_all bcrypt_hash bcrypt_compare acts DB.empty) = Proceed usr →
  requireAdmin usr accepts_html
  = if accepts_html then Redirect "/dashboard"
    else Reject 403 "Admin access required".
Proof.
  intros Hsession. unfold authenticateJWT. rewrite Hsession.
  destruct (truthy _) as [authHeader|]; [|by case_match].
  destruct (jwt_verify _) as [[uid|]|]; simpl; [|done..].
  destruct (getUserById uid _) as [user|] eqn:Huser; [|done].
  case_match; [|done]. intros [= <-].
  apply getUserById_Some in Huser as (j & u0 & Hfind & ->).
  apply list_find_Some in Hfind as (Hj%list_elem_of_lookup_2 & _ & _).
  assert (Forall plain_user
            (DB.users (perform_all bcrypt_hash bcrypt_compare acts DB.empty)))
    as Hplain by (apply perform_all_plain; constructor).
  rewrite Forall_forall in Hplain. destruct (Hplain u0 Hj) as (Hrole & _).
  unfold requireAdmin. simpl. rewrite Hrole. by rewrite decide_False.
Qed.

(** ** Administrative statistics *)

Lemma countEndpoints_snoc logs l :
  countEndpoints (logs ++ [l])
  = <[Log.endpoint l := default 0 (countEndpoints logs !! Log.endpoint l) + 1]>
      (countEndpoints logs).
Proof. unfold countEndpoints. by rewrite foldl_app. Qed.

Lemma countEndpoints_lookup logs e :
  countEndpoints logs !! e
  = if decide (length (filter (λ l, Log.endpoint l = e) logs) = 0) then None
    else Some (length (filter (λ l, Log.endpoint l = e) logs)).
Proof.
  induction logs as [|l logs IH] using rev_ind; [apply lookup_empty|].
  rewrite countEndpoints_snoc, filter_app, length_app.
  destruct (decide (Log.endpoint l = e)) as [Heq|Hne].
  - rewrite Heq, lookup_insert_eq, IH. rewrite filter_cons_True by done.
    rewrite filter_nil. simpl length.
    rewrite (decide_False (P := _ + 1 = 0)) by lia. f_equal.
    case_decide; simpl; lia.
  - rewrite lookup_insert_ne, IH by done. rewrite filter_cons_False by done.
    rewrite filter_nil. simpl length. by rewrite Nat.add_0_r.
Qed.

Lemma countEndpoints_total logs :
  map_fold (λ _ n total, n + total) 0 (countEndpoints logs) = length logs.
Proof.
  induction logs as [|l logs IH] using rev_ind; [apply map_fold_empty|].
  rewrite countEndpoints_snoc, length_app. simpl.
  set (m := countEndpoints logs) in *. set (e := Log.endpoint l).
  destruct (m !! e) as [n|] eqn:He; simpl.
  - assert (map_fold (λ _ n total, n + total) 0 m
            = n + map_fold (λ _ n total, n + total) 0 (delete e m)) as Hm.
    { rewrite <-(insert_delete_id m e n He) at 1.
      apply map_fold_insert_L; [intros; lia|apply lookup_delete_eq]. }
    rewrite <-insert_delete_eq.
    rewrite map_fold_insert_L; [|intros; lia|apply lookup_delete_eq]. lia.
  - rewrite map_fold_insert_L; [|intros; lia|done]. lia.
Qed.

(** X25: the endpoint statistics count the log.  For a log whose endpoint
    names are not names an empty object inherits, [getAdminStats] reports
    for each endpoint the number of log entries that name it, reports
    nothing for an endpoint the log does not name, and the reported counts
    add up to [totalRequests]; [recentActivity] is the first 20 entries of
    the log, and the active counts do not exceed the totals. *)
Theorem getAdminStats_counts today db downloads urls :
  Forall (λ l, Log.endpoint l ∉ inherited_names) (DB.logs db) →
  let stats := getAdminStats toDateString today db downloads urls in
  (∀ e,
     AdminStats.endpointStats stats !! e
     = if decide (length (filter (λ l, Log.endpoint l = e) (DB.logs db)) = 0)
       then None
       else Some (length (filter (λ l, Log.endpoint l = e) (DB.logs db))))
  ∧ map_fold (λ _ n total, n + total) 0 (AdminStats.endpointStats stats)
    = AdminStats.totalRequests stats
  ∧ AdminStats.recentActivity stats `prefix_of` DB.logs db
  ∧ length (AdminStats.recentActivity stats)
    = min 20 (AdminStats.totalRequests stats)
  ∧ AdminStats.activeUsers stats ≤ AdminStats.totalUsers stats
  ∧ AdminStats.activeApiKeys stats ≤ AdminStats.totalApiKeys stats
  ∧ AdminStats.todayRequests stats ≤ AdminStats.totalRequests stats.
Proof.
  intros _ stats. subst stats. unfold getAdminStats.
  cbn [AdminStats.endpointStats AdminStats.totalRequests
       AdminStats.recentActivity AdminStats.activeUsers AdminStats.totalUsers
       AdminStats.activeApiKeys AdminStats.totalApiKeys
       AdminStats.todayRequests].
  split_and!.
  - apply countEndpoints_lookup.
  - apply countEndpoints_total.
  - apply prefix_take.
  - apply length_take.
  - apply length_filter.
  - apply length_filter.
  - apply length_filter.
Qed.

End MoreProperties.

(** * The further properties on concrete stores *)

(** X1 at work: an unknown email and a wrong password. *)
Lemma authenticateUser_fails_alike_witness :
  authenticateUser Demo.bcrypt_compare "2026-11-02T09:20:00.000Z"
    "nobody@x.com" "secret1" Demo.registered
  = (Demo.registered, Throw "Invalid credentials")
  ∧ authenticateUser Demo.bcrypt_compare "2026-11-02T09:20:00.000Z"
      "alice@x.com" "wrong" Demo.registered
    = (Demo.registered, Throw "Invalid credentials").
Proof.
  split; apply authenticateUser_fails_alike.
  - left. for_each_by_evaluation.
  - right. exists 0, Demo.alice, "$2a$10$N9qo8uLOickgx2ZMRZoMyesecret1".
    split_and!; vm_compute; reflexivity.
Defined.

(** X2 at work: alice logs in. *)
Lemma authenticateUser_success_witness :
  ∃ i u0 hash,
    DB.users Demo.registered !! i = Some u0
    ∧ User.email u0 = "alice@x.com" ∧ User.isActive u0 = true
    ∧ (∀ j u1, (j < i)%nat → DB.users Demo.registered !! j = Some u1 →
         ¬ (User.email u1 = "alice@x.com" ∧ User.isActive u1 = true))
    ∧ User.password u0 = Some hash
    ∧ Demo.bcrypt_compare "secret1" hash = true
    ∧ User.id (User.without_password
                 (set_lastLogin "2026-11-02T09:20:00.000Z" Demo.alice))
      = User.id u0
    ∧ User.username (User.without_password
                       (set_lastLogin "2026-11-02T09:20:00.000Z" Demo.alice))
      = User.username u0
    ∧ User.lastLogin (User.without_password
                        (set_lastLogin "2026-11-02T09:20:00.000Z" Demo.alice))
      = Some "2026-11-02T09:20:00.000Z"
    ∧ DB.users (fst Sample.logged_in) !! i
      = Some (set_lastLogin "2026-11-02T09:20:00.000Z" u0)
    ∧ (∀ j, j ≠ i →
         DB.users (fst Sample.logged_in) !! j = DB.users Demo.registered !! j)
    ∧ length (DB.users (fst Sample.logged_in))
      = length (DB.users Demo.registered)
    ∧ DB.apiKeys (fst Sample.logged_in) = DB.apiKeys Demo.registered
    ∧ DB.logs (fst Sample.logged_in) = DB.logs Demo.registered.
Proof.
  apply (authenticateUser_success Demo.bcrypt_compare
           "2026-11-02T09:20:00.000Z" "alice@x.com" "secret1" Demo.registered
           (fst Sample.logged_in)
           (User.without_password
              (set_lastLogin "2026-11-02T09:20:00.000Z" Demo.alice))).
  vm_compute. reflexivity.
Defined.

(** X3 at work: alice registers on the empty files and logs in. *)
Lemma register_then_login_witness :
  ∃ db2 u',
    authenticateUser Demo.bcrypt_compare "2026-11-02T09:20:00.000Z"
      "alice@x.com" "secret1" Demo.registered = (db2, Return u')
    ∧ User.id u' = "u-1"
    ∧ User.username u' = "alice"
    ∧ User.email u' = "alice@x.com"
    ∧ User.password u' = None
    ∧ User.lastLogin u' = Some "2026-11-02T09:20:00.000Z".
Proof.
  apply (register_then_login Demo.bcrypt_hash Demo.bcrypt_compare "u-1"
           Demo.salt "2026-11-02T09:00:00.000Z" "alice" "alice@x.com" "secret1"
           DB.empty Demo.registered (User.without_password Demo.alice)).
  - vm_compute. reflexivity.
  - vm_compute. reflexivity.
Defined.

(** X4 at work: an empty query parameter and an empty body; no body at
    all. *)
Lemma authenticateApiKey_no_key_witness :
  authenticateApiKey Demo.bcrypt_compare "2026-11-02T10:00:00.000Z"
    (Request.mk None (Some "") (Some None)) Demo.with_key
  = (Demo.with_key, Json 401 "API key is required")
  ∧ authenticateApiKey Demo.bcrypt_compare "2026-11-02T10:00:00.000Z"
      (Request.mk None None None) Demo.with_key
    = (Demo.with_key, Json 500 "Authentication failed").
Proof.
  split.
  - exact (authenticateApiKey_no_key Demo.bcrypt_compare
             "2026-11-02T10:00:00.000Z" (Request.mk None (Some "") (Some None))
             Demo.with_key eq_refl eq_refl eq_refl).
  - exact (authenticateApiKey_no_key Demo.bcrypt_compare
             "2026-11-02T10:00:00.000Z" (Request.mk None None None)
             Demo.with_key eq_refl eq_refl).
Defined.

(** X5 at work: alice's key in the header beats junk in the query and the
    body. *)
Lemma authenticateApiKey_key_precedence_witness :
  authenticateApiKey Demo.bcrypt_compare "2026-11-02T10:00:00.000Z"
    (Request.mk (Some Demo.alice_key) (Some "garbage") (Some (Some "junk")))
    Demo.with_key
  = authenticateApiKey Demo.bcrypt_compare "2026-11-02T10:00:00.000Z"
      (Request.mk (Some Demo.alice_key) None (Some None)) Demo.with_key.
Proof.
  apply authenticateApiKey_key_precedence. left. vm_compute. reflexivity.
Defined.

(** X6 at work: alice looked up by id, and alice as a validation of her
    key reports her. *)
Lemma password_never_returned_witness :
  User.password (User.without_password Demo.alice) = None
  ∧ User.password
      (default Demo.alice
         (Validation.user
            (Demo.info
               (snd (validateApiKey Demo.bcrypt_compare
                       "2026-11-02T10:00:00.000Z" Demo.alice_key
                       Demo.with_key))))) = None.
Proof.
  destruct (password_never_returned Demo.bcrypt_hash Demo.bcrypt_compare
              Sample.jwt_verify) as (Hget & _ & _ & Hval & _ & _).
  split.
  - apply (Hget "u-1" Demo.with_key). vm_compute. reflexivity.
  - apply (Hval "2026-11-02T10:00:00.000Z" Demo.alice_key Demo.with_key
             (fst (validateApiKey Demo.bcrypt_compare "2026-11-02T10:00:00.000Z"
                     Demo.alice_key Demo.with_key))
             (Demo.info
                (snd (validateApiKey Demo.bcrypt_compare
                        "2026-11-02T10:00:00.000Z" Demo.alice_key
                        Demo.with_key))));
      vm_compute; reflexivity.
Defined.

(** X8 at work: a request logged with a key nobody was issued. *)
Lemma logApiUsage_unknown_key_witness :
  logApiUsage Demo.bcrypt_compare "l-9" "2026-11-02T10:00:00.000Z"
    "2026-11-02T10:00:01.000Z" Demo.monday "garbage" "qrcode_generate"
    Demo.no_data Demo.with_key
  = (DB.set_logs
       (take 1000
          (logEntry "l-9" "2026-11-02T10:00:00.000Z" "garbage"
             "qrcode_generate" Demo.no_data :: DB.logs Demo.with_key))
       Demo.with_key,
     logEntry "l-9" "2026-11-02T10:00:00.000Z" "garbage" "qrcode_generate"
       Demo.no_data).
Proof.
  apply logApiUsage_unknown_key. for_each_by_evaluation.
Defined.

(** X9 at work: the key issued from a uuid in its five groups. *)
Lemma createApiKey_key_format_witness :
  IssuedKey.apiKey
    (snd (createApiKey Demo.bcrypt_hash "3f2a77c1-0b5e-4d2a-9c41-7e8f6a1b2c3d"
            Demo.salt "k-9" "2026-11-02T09:01:00.000Z" "u-1" None
            Demo.registered))
  = "shd_3f2a77c10b5e4d2a9c417e8f6a1b2c3d".
Proof.
  apply (proj2 (proj2 (proj2
           (createApiKey_key_format Demo.bcrypt_hash
              "3f2a77c1-0b5e-4d2a-9c41-7e8f6a1b2c3d" Demo.salt "k-9"
              "2026-11-02T09:01:00.000Z" "u-1" None Demo.registered)))
           "3f2a77c1" "0b5e" "4d2a" "9c41" "7e8f6a1b2c3d").
  - reflexivity.
  - by_evaluation.
Defined.

(** X10 at work: the key issued to alice validates. *)
Lemma issue_then_validate_witness :
  ∃ db2 v,
    validateApiKey Demo.bcrypt_compare "2026-11-02T09:02:00.000Z"
      Demo.alice_key Demo.with_key = (db2, Validation.Valid v)
    ∧ Validation.userId v = "u-1"
    ∧ Validation.keyId v = "k-1"
    ∧ Validation.user v = getUserById "u-1" Demo.registered.
Proof.
  apply (issue_then_validate Demo.bcrypt_hash Demo.bcrypt_compare "3f2a-77c1"
           Demo.salt "k-1" "2026-11-02T09:01:00.000Z" "u-1" None
           Demo.registered "2026-11-02T09:02:00.000Z").
  - vm_compute. reflexivity.
  - for_each_by_evaluation.
Defined.

(** X12 at work: alice's listing after she revoked her key. *)
Lemma revoke_then_unlisted_witness :
  getApiKeysByUser "u-1" Demo.revoked
  = filter (λ i, KeyInfo.id i ≠ "k-1") (getApiKeysByUser "u-1" Demo.with_key).
Proof.
  apply (revoke_then_unlisted "2026-11-02T09:05:00.000Z" "k-1" "u-1"
           Demo.with_key Demo.revoked true "u-1").
  - by_evaluation.
  - vm_compute. reflexivity.
Defined.

(** X13 at work: a download logged for alice, asked back with the default
    limit. *)
Lemma logDownload_newest_first_witness :
  head (getUserDownloads "u-1" None
          (fst (logDownload "d-3" "2026-11-02T12:03:00.000Z" "u-1" "instagram"
                  "https://instagram.example/3" Sample.fetched
                  Sample.downloads)))
  = Some (Download.mk "d-3" "u-1" "instagram" "https://instagram.example/3"
            Sample.fetched "2026-11-02T12:03:00.000Z").
Proof.
  apply (logDownload_newest_first "d-3" "2026-11-02T12:03:00.000Z" "u-1"
           "instagram" "https://instagram.example/3" Sample.fetched
           Sample.downloads).
  discriminate.
Defined.

(** X14 at work: alice has one download, fewer than the default limit. *)
Lemma getUserDownloads_bounded_witness :
  getUserDownloads "u-1" None Sample.downloads
  = filter (λ d, Download.userId d = "u-1") Sample.downloads.
Proof.
  apply (getUserDownloads_bounded "u-1" None Sample.downloads).
  vm_compute. lia.
Defined.

(** X16 at work: a click on [docs], never clicked before, leaves it with
    one click and the time of the click, and leaves the lookup of [blog]
    alone; a click on an unknown code changes nothing. *)
Lemma incrementShortUrlClick_counts_witness :
  (∃ u',
     getShortUrlBySlug "docs"
       (incrementShortUrlClick "2026-11-02T11:30:00.000Z" "docs" Sample.urls)
     = Some u'
     ∧ ShortUrl.clickCount u' = 1%nat
     ∧ ShortUrl.lastAccessed u' = Some "2026-11-02T11:30:00.000Z"
     ∧ ShortUrl.originalUrl u' = "https://example.org/docs")
  ∧ getShortUrlBySlug "blog"
      (incrementShortUrlClick "2026-11-02T11:30:00.000Z" "docs" Sample.urls)
    = getShortUrlBySlug "blog" Sample.urls
  ∧ incrementShortUrlClick "2026-11-02T11:30:00.000Z" "nope" Sample.urls
    = Sample.urls.
Proof.
  split_and!.
  - destruct (proj1 (incrementShortUrlClick_counts "2026-11-02T11:30:00.000Z"
                       "docs" Sample.urls)
                (Sample.url "docs" "https://example.org/docs"
                   (Some Demo.alice_key)))
      as (i & u' & _ & _ & _ & Hget & Hclicks & Hat & _ & _ & Hurl & _).
    + vm_compute. reflexivity.
    + exists u'. by rewrite Hget, Hclicks, Hat, Hurl.
  - apply (incrementShortUrlClick_counts "2026-11-02T11:30:00.000Z" "docs"
             Sample.urls). discriminate.
  - apply (incrementShortUrlClick_counts "2026-11-02T11:30:00.000Z" "nope"
             Sample.urls). vm_compute. reflexivity.
Defined.

(** X17 at work: alice's account through bob's registration, her login,
    her requests and the revocation of her key. *)
Lemma user_record_persists_witness :
  ∃ u',
    DB.users (perform_all Demo.bcrypt_hash Demo.bcrypt_compare Sample.actions
                Demo.with_key) !! 0 = Some u'
    ∧ same_account Demo.alice u'.
Proof.
  apply user_record_persists. vm_compute. reflexivity.
Defined.

(** X18 at work: alice's key, revoked, through the same calls. *)
Lemma key_record_persists_witness :
  ∃ k',
    DB.apiKeys (perform_all Demo.bcrypt_hash Demo.bcrypt_compare Sample.actions
                  Demo.revoked) !! 0 = Some k'
    ∧ same_key (ApiKey.revoke "2026-11-02T09:05:00.000Z" Sample.alice_record) k'.
Proof.
  apply key_record_persists. vm_compute. reflexivity.
Defined.

(** X19 at work: the calls on the empty files. *)
Lemma accounts_stay_unique_witness :
  NoDup (User.username
         <$> DB.users (perform_all Demo.bcrypt_hash Demo.bcrypt_compare
                         (List.map Api Demo.setup ++ Sample.actions) DB.empty))
  ∧ NoDup (User.email
           <$> DB.users (perform_all Demo.bcrypt_hash Demo.bcrypt_compare
                           (List.map Api Demo.setup ++ Sample.actions)
                           DB.empty)).
Proof.
  apply accounts_stay_unique; vm_compute; constructor.
Defined.

(** X21 at work: the calls on the empty files. *)
Lemma log_stays_capped_witness :
  (length (DB.logs (perform_all Demo.bcrypt_hash Demo.bcrypt_compare
                     (List.map Api Demo.setup ++ Sample.actions) DB.empty))
  ≤ 1000)%nat.
Proof.
  apply log_stays_capped. vm_compute. lia.
Defined.

(** X22 at work: alice sends one POST with her key in the body and then
    1001 GETs with it in the query, all on Monday. *)
Lemma served_requests_within_limit_witness :
  within_limits
    (handle_all Demo.bcrypt_compare
       ((LogsBodyKey,
         Served.mk "2026-11-02T09:30:00.000Z"
           (Request.mk None None (Some (Some Demo.alice_key)))
           "l-p" "2026-11-02T09:30:01.000Z" "2026-11-02T09:30:02.000Z"
           Demo.monday "qrcode_generate" Demo.no_data)
        :: ((λ i, (LogsQueryKey, Demo.request i Demo.alice_key Demo.monday))
            <$> seq 0 1001))
       Demo.with_key).
Proof.
  apply served_requests_within_limit.
  - apply Forall_cons. split.
    + intros apiKey [= <-]. reflexivity.
    + apply Forall_fmap, Forall_forall. intros i _ apiKey [= <-]. reflexivity.
  - unfold within_limits. by_evaluation.
Defined.

(** X23 at work: alice's token. *)
Lemma generateToken_then_authenticateJWT_witness :
  authenticateJWT Sample.jwt_verify
    (WebRequest.mk None
       (Some ("Bearer " ++ generateToken Sample.jwt_sign "u-1")) false)
    Demo.registered
  = if User.isActive Demo.alice
    then Proceed (Some (User.without_password Demo.alice))
    else Reject 403 "User not found or inactive".
Proof.
  apply (generateToken_then_authenticateJWT Sample.jwt_sign Sample.jwt_verify
           "u-1" Demo.registered 0 Demo.alice false);
    vm_compute; reflexivity.
Defined.

(** X24 at work: alice, with her token, at the admin gate. *)
Lemma token_never_admin_witness :
  requireAdmin (Some (User.without_password Demo.alice)) false
  = Reject 403 "Admin access required".
Proof.
  apply (token_never_admin Demo.bcrypt_hash Demo.bcrypt_compare
           Sample.jwt_verify (List.map Api Demo.setup)
           (WebRequest.mk None
              (Some ("Bearer " ++ generateToken Sample.jwt_sign "u-1")) false)
           (Some (User.without_password Demo.alice)) false);
    vm_compute; reflexivity.
Defined.

(** X25 at work: the statistics after three logged requests. *)
Lemma getAdminStats_counts_witness :
  AdminStats.endpointStats
    (getAdminStats Demo.toDateString Demo.monday
       (record_all Demo.bcrypt_compare (take 3 Demo.calls) Demo.with_key)
       Sample.downloads Sample.urls) !! "qrcode_generate"
  = Some 3
  ∧ AdminStats.endpointStats
      (getAdminStats Demo.toDateString Demo.monday
         (record_all Demo.bcrypt_compare (take 3 Demo.calls) Demo.with_key)
         Sample.downloads Sample.urls) !! "screenshot"
    = None.
Proof.
  destruct (getAdminStats_counts Demo.toDateString Demo.monday
              (record_all Demo.bcrypt_compare (take 3 Demo.calls) Demo.with_key)
              Sample.downloads Sample.urls) as (Hcount & _).
  { by_evaluation. }
  split.
  - rewrite Hcount. vm_compute. reflexivity.
  - rewrite Hcount. vm_compute. reflexivity.
Defined.

(** X26 at work: bob has used up his 1000 requests of Monday; a POST with
    alice's key in the header and bob's key in the body is admitted for
    alice and recorded for bob, whose counter goes to 1001. *)
Lemma handler_bills_logged_key_witness :
  within_limits Sample.bob_at_limit
  ∧ ∃ u',
      DB.users (fst (handle Demo.bcrypt_compare LogsBodyKey Sample.crossed
                       Sample.bob_at_limit)) !! 1%nat = Some u'
      ∧ User.id u' = "u-2"
      ∧ User.apiLimit u' = 1000%nat
      ∧ User.usageToday u' = 1001%nat
      ∧ (User.apiLimit u' < User.usageToday u')%nat.
Proof.
  split; [unfold within_limits; by_evaluation|].
  edestruct (handler_bills_logged_key Demo.bcrypt_compare LogsBodyKey
               Sample.crossed Sample.bob_at_limit)
    as (u' & Hj & Hused & Hlimit & Hid & _ & Hover).
  - vm_compute. reflexivity.
  - reflexivity.
  - vm_compute. reflexivity.
  - vm_compute. reflexivity.
  - exists u'. rewrite Hused, Hlimit, Hid.
    split_and!; [exact Hj|vm_compute; reflexivity..|].
    rewrite <-Hused, <-Hlimit at 1. apply Hover; vm_compute; reflexivity.
Defined.
